(** * Waitlist: referral codes, the two API routes and the sign-up form

    A shallow embedding of the TypeScript sources

      - [src/lib/utils.ts]           ([generateCode])
      - [src/lib/logger.ts]          ([getErrorMessage], the leveled logger)
      - [src/app/api/notion/route.ts] ([NotionRoute.POST])
      - [src/app/api/mail/route.ts]   ([MailRoute.POST])
      - [src/components/form.tsx]     ([Form.handleSubmit])

    The external collaborators (Notion, Resend, the Upstash limiter,
    [Math.random], [fetch]) are part of an explicit world that the
    handlers thread through their calls. *)

From Stdlib Require Import String Ascii List ZArith QArith Qround Bool Lia.
Import ListNotations.
Close Scope Q_scope.
Open Scope nat_scope.
Open Scope string_scope.

(** ** JavaScript strings and values *)

Module Js.

(** [s[i]]: the character at index [i], [undefined] outside the string. *)
Definition index (s : string) (i : Z) : option ascii :=
  if (i <? 0)%Z then None else String.get (Z.to_nat i) s.

(** [code += x] where [x] is a character or [undefined]; string
    concatenation turns [undefined] into the text "undefined". *)
Definition append_indexed (code : string) (x : option ascii) : string :=
  match x with
  | Some c => code ++ String c EmptyString
  | None => code ++ "undefined"
  end.

(** A value that is a string or [undefined] is truthy exactly when it is a
    non-empty string; [truthy x] is that string. *)
Definition truthy (x : option string) : option string :=
  match x with
  | Some s => if s =? "" then None else Some s
  | None => None
  end.

(** [s.split(sep)] for a one-character separator. The resulting array is
    never empty: it is returned as its element [0] and the elements after. *)
Fixpoint split (sep : ascii) (s : string) : string * list string :=
  match s with
  | EmptyString => (EmptyString, [])
  | String c s' =>
      let (first, rest) := split sep s' in
      if Ascii.eqb c sep then (EmptyString, first :: rest) else (String c first, rest)
  end.

(** White space and line terminators among the code units below 256:
    TAB, LF, VT, FF, CR, SPACE and NO-BREAK SPACE. Strings are modelled with
    8-bit characters, read as the UTF-16 code units 0..255. *)
Definition isWhiteSpace (c : ascii) : bool :=
  let n := nat_of_ascii c in
  ((9 <=? n)%nat && (n <=? 13)%nat) || (n =? 32)%nat || (n =? 160)%nat.

Fixpoint trimStart (s : string) : string :=
  match s with
  | EmptyString => EmptyString
  | String c s' => if isWhiteSpace c then trimStart s' else s
  end.

Fixpoint trimEnd (s : string) : string :=
  match s with
  | EmptyString => EmptyString
  | String c s' =>
      let t := trimEnd s' in
      if isWhiteSpace c && (t =? "") then EmptyString else String c t
  end.

(** [s.trim()] *)
Definition trim (s : string) : string := trimEnd (trimStart s).

(** Values that can be thrown: an [Error] object (with its [name] and
    [message]), a string, or anything else. *)
Inductive thrown : Type :=
| ErrorObject (name message : string)
| ThrownString (s : string)
| ThrownOther.

Definition instanceof_Error (e : thrown) : bool :=
  match e with ErrorObject _ _ => true | _ => false end.

(** [new Error(message)] *)
Definition new_Error (message : string) : thrown := ErrorObject "Error" message.

End Js.

(** ** [Math.random] as a source of samples

    The n-th call returns [samples n]; the contract of [Math.random] is
    [0 <= samples n < 1], stated as [fair] below. *)

Record Rng : Type := mkRng { samples : nat -> Q; drawn : nat }.

Definition Math_random (g : Rng) : Q * Rng :=
  (samples g (drawn g), mkRng (samples g) (S (drawn g))).

Definition Math_floor (x : Q) : Z := Qfloor x.

Definition fair (g : Rng) : Prop :=
  forall n, (0 <= samples g n)%Q /\ (samples g n < 1)%Q.

(** ** src/lib/utils.ts *)

Definition REFERRAL_CODE_CHARSET : string := "ABCDEFGHJKLMNPQRSTUVWXYZ23456789".

(** The body of [for (let i = 0; i < length; i++)], run [todo] more times. *)
Fixpoint generateCode_loop (todo : nat) (code : string) (g : Rng) : string * Rng :=
  match todo with
  | O => (code, g)
  | S todo' =>
      let charsetLength := Z.of_nat (String.length REFERRAL_CODE_CHARSET) in
      let (r, g') := Math_random g in
      let index := Math_floor (r * inject_Z charsetLength) in
      generateCode_loop todo' (Js.append_indexed code (Js.index REFERRAL_CODE_CHARSET index)) g'
  end.

(** [generateCode(length)] for an integer [length]: the loop runs once for
    every integer [i] with [0 <= i < length], that is [Z.to_nat length] times
    (not at all when [length] is negative). *)
Definition generateCode (length : Z) (g : Rng) : string * Rng :=
  generateCode_loop (Z.to_nat length) "" g.

(** The default of the parameter, [length = 8]. *)
Definition generateCode_default_length : Z := 8%Z.

(** The alphabet as a list of characters. *)
Definition alphabet : list ascii := list_ascii_of_string REFERRAL_CODE_CHARSET.

(** Uppercase letters and digits without the look-alikes I, O, 0 and 1. *)
Definition unambiguous (c : ascii) : bool :=
  let n := nat_of_ascii c in
  (((65 <=? n)%nat && (n <=? 90)%nat) || ((48 <=? n)%nat && (n <=? 57)%nat))
  && negb (Ascii.eqb c "I") && negb (Ascii.eqb c "O")
  && negb (Ascii.eqb c "0") && negb (Ascii.eqb c "1").

(** The claim about [generateCode] with an alphabet of [size] symbols. *)
Definition code_in_alphabet_of (size : nat) (length : Z) (g : Rng) : Prop :=
  let code := fst (generateCode length g) in
  Z.of_nat (String.length code) = length
  /\ Forall (fun c => In c alphabet) (list_ascii_of_string code)
  /\ List.length alphabet = size
  /\ NoDup alphabet
  /\ (forall c, In c alphabet <-> unambiguous c = true).

(** A constant sample source, used in examples. *)
Definition rng_const (q : Q) : Rng := mkRng (fun _ => q) 0.


(** ** JSON payloads *)

(** Scalar values of the fields of a JSON response. *)
Inductive jval : Type := JNull | JBool (b : bool) | JStr (s : string).

(** An object literal; the first binding of a key is the one in force. *)
Definition jobject : Type := list (string * jval).

Fixpoint prop {V : Type} (key : string) (o : list (string * V)) : option V :=
  match o with
  | [] => None
  | (k, v) :: o' => if k =? key then Some v else prop key o'
  end.

(** Truthiness of a property that may be [undefined]. *)
Definition jtruthy (x : option jval) : bool :=
  match x with
  | Some (JStr s) => negb (s =? "")
  | Some (JBool b) => b
  | Some JNull | None => false
  end.

(** [`${x}`]: conversion to a string inside a template literal. *)
Definition template (x : option jval) : string :=
  match x with
  | Some (JStr s) => s
  | Some (JBool true) => "true"
  | Some (JBool false) => "false"
  | Some JNull => "null"
  | None => "undefined"
  end.

(** A parsed JSON document: [null], or an object with fields of type [F]
    (the other scalars and arrays have none of the fields the code reads
    and behave as the empty object). A body text that is not JSON at all is
    [None] in [option (json F)]. *)
Inductive json (F : Type) : Type :=
| Null
| Object (fields : F).
Arguments Null {F}.
Arguments Object {F} fields.

(** ** Computations with a state and exceptions

    [Eff S A]: a computation over a world of type [S] that returns an [A]
    or throws. [await] is sequencing. *)

Inductive result (A : Type) : Type :=
| Return (a : A)
| Throw (e : Js.thrown).
Arguments Return {A} a.
Arguments Throw {A} e.

Definition Eff (S A : Type) : Type := S -> result A * S.

Section Effects.
Context {S : Type}.

Definition ret {A} (a : A) : Eff S A := fun w => (Return a, w).

Definition throw {A} (e : Js.thrown) : Eff S A := fun w => (Throw e, w).

Definition bind {A B} (c : Eff S A) (k : A -> Eff S B) : Eff S B :=
  fun w =>
    match c w with
    | (Return a, w') => k a w'
    | (Throw e, w') => (Throw e, w')
    end.

(** [try { body } catch (error) { handler }] *)
Definition try_catch {A} (body : Eff S A) (handler : Js.thrown -> Eff S A) : Eff S A :=
  fun w =>
    match body w with
    | (Return a, w') => (Return a, w')
    | (Throw e, w') => handler e w'
    end.

(** [try { body } catch (error) { handler } finally { final }], for a
    [final] block that neither throws nor returns. *)
Definition try_catch_finally {A} (body : Eff S A) (handler : Js.thrown -> Eff S A)
           (final : S -> S) : Eff S A :=
  fun w => let (r, w') := try_catch body handler w in (r, final w').

(** A state change that cannot fail. *)
Definition modify (f : S -> S) : Eff S unit := fun w => (Return tt, f w).

Definition gets {A} (f : S -> A) : Eff S A := fun w => (Return (f w), w).
End Effects.

Declare Scope eff_scope.
Delimit Scope eff_scope with eff.
Notation "x <- c ;; k" := (bind c (fun x => k))
  (at level 61, c at next level, right associativity) : eff_scope.
Notation "c ;; k" := (bind c (fun _ => k))
  (at level 61, right associativity) : eff_scope.
Open Scope eff_scope.

(** ** src/lib/logger.ts *)

Inductive LogLevel : Type := LError | LWarn | LInfo | LDebug.

(** One line written to the console. Of [formatLog]'s record the level, the
    source, the message and the name of the error are kept; the timestamp,
    the error's message and stack and the context map are left out. *)
Record LogEntry : Type := mkLog {
  level : LogLevel;
  source : string;
  message : string;
  error_name : option string
}.

Definition getErrorMessage (e : Js.thrown) : string :=
  match e with
  | Js.ErrorObject _ m => m
  | Js.ThrownString s => s
  | Js.ThrownOther => "Unknown error occurred"
  end.

(** [error instanceof Error ? error : new Error(getErrorMessage(error))],
    as the name that [formatLog] prints. *)
Definition as_Error (e : Js.thrown) : string :=
  match e with
  | Js.ErrorObject n _ => n
  | _ => "Error"
  end.

(** The lines a call of the logger writes: [debug] only in development. *)
Definition logger_lines (isDev : bool) (l : LogLevel) (src msg : string)
           (err : option string) : list LogEntry :=
  match l with
  | LDebug => if isDev then [mkLog LDebug src msg None] else []
  | _ => [mkLog l src msg err]
  end.

(** ** The server's world: Notion, Upstash, Resend, the console *)

(** The properties of a waitlist row, as [notion.pages.create] receives
    them: title, email, the rich-text fields and the relation. *)
Record Properties : Type := mkProperties {
  Name : string;
  Email : string;
  Referral_Code : string;
  Referred_By : list string;   (* rich_text: [] or one text *)
  Referrer : list string       (* relation: [] or one page id *)
}.

Record Page : Type := mkPage { id : string; properties : Properties }.

(** The two filters the code sends to [notion.databases.query]. *)
Inductive Filter : Type :=
| Email_equals (email : string)             (* { property: "Email", email: { equals } } *)
| Referral_Code_equals (code : string).     (* { property: "Referral Code", rich_text: { equals } } *)

(** [Ratelimit.slidingWindow(tokens, window)]; the window is a duration
    text such as "1 m". *)
Inductive Unit_ : Type := Milliseconds | Seconds | Minutes | Hours | Days.
Record Duration : Type := mkDuration { amount : nat; unit_ : Unit_ }.
Record Limiter : Type := slidingWindow { tokens : nat; window : Duration }.

Definition milliseconds (t : Duration) : Z :=
  (Z.of_nat (amount t) *
   match unit_ t with
   | Milliseconds => 1 | Seconds => 1000 | Minutes => 60000
   | Hours => 3600000 | Days => 86400000
   end)%Z.

Record RatelimitResponse : Type := mkLimit {
  success : bool;
  limit : nat;
  remaining : nat
}.

(** The message handed to [resend.emails.send]; [react] is the welcome
    template applied to [userFirstname]. *)
Record Mail : Type := mkMail {
  from : string;
  to : list string;
  subject : string;
  userFirstname : option string
}.

(** What [resend.emails.send] resolves to: [{ data, error }] with
    [data.id] and [error.message], [error.name]. *)
Record SendResponse : Type := mkSend {
  data : option string;                   (* data.id *)
  send_error : option (string * string)   (* error.message, error.name *)
}.

(** Calls made to the collaborators. *)
Inductive Event : Type :=
| Limit (policy : Limiter) (key : string)           (* ratelimit.limit(key) *)
| Query (database_id : string) (filter : Filter)    (* notion.databases.query *)
| Create (database_id : string) (props : Properties) (* notion.pages.create *)
| Send (mail : Mail).                               (* resend.emails.send *)

Definition is_notion (e : Event) : bool :=
  match e with Query _ _ | Create _ _ => true | _ => false end.
Definition is_limit (e : Event) : bool :=
  match e with Limit _ _ => true | _ => false end.
Definition is_send (e : Event) : bool :=
  match e with Send _ => true | _ => false end.

(** The world a request handler runs in. The oracles say how the n-th call
    to a collaborator is answered; [events] and [console] record what the
    handlers did, oldest first. The store follows the interface the code
    relies on: a query returns the rows that satisfy its filter, a creation
    appends a row under a new id, and a call that throws changes nothing.
    The limiter and the mail provider are left to their oracles. *)
Record World : Type := mkWorld {
  (* Notion *)
  database : list Page;
  notion_fault : nat -> option Js.thrown;   (* the n-th Notion call throws *)
  notion_ids : nat -> string;               (* id of the n-th row *)
  (* Upstash *)
  limiter_answer : nat -> Limiter -> string -> result RatelimitResponse;
  (* Resend *)
  resend_answer : nat -> Mail -> result SendResponse;
  (* Math.random *)
  rng : Rng;
  (* process.env *)
  isDev : bool;                             (* NODE_ENV === 'development' *)
  NOTION_DB_ID : string;                    (* process.env.NOTION_DB_ID || "" *)
  RESEND_FROM_EMAIL : option string;
  (* observations *)
  events : list Event;
  console : list LogEntry
}.

Definition set_database (f : list Page -> list Page) (w : World) : World :=
  mkWorld (f (database w)) (notion_fault w) (notion_ids w) (limiter_answer w)
          (resend_answer w) (rng w) (isDev w) (NOTION_DB_ID w) (RESEND_FROM_EMAIL w)
          (events w) (console w).

Definition set_rng (g : Rng) (w : World) : World :=
  mkWorld (database w) (notion_fault w) (notion_ids w) (limiter_answer w)
          (resend_answer w) g (isDev w) (NOTION_DB_ID w) (RESEND_FROM_EMAIL w)
          (events w) (console w).

Definition record_event (e : Event) (w : World) : World :=
  mkWorld (database w) (notion_fault w) (notion_ids w) (limiter_answer w)
          (resend_answer w) (rng w) (isDev w) (NOTION_DB_ID w) (RESEND_FROM_EMAIL w)
          (events w ++ [e])%list (console w).

Definition write_console (ls : list LogEntry) (w : World) : World :=
  mkWorld (database w) (notion_fault w) (notion_ids w) (limiter_answer w)
          (resend_answer w) (rng w) (isDev w) (NOTION_DB_ID w) (RESEND_FROM_EMAIL w)
          (events w) (console w ++ ls)%list.

Definition count_events (p : Event -> bool) (w : World) : nat :=
  List.length (filter p (events w)).

Module logger.
Definition log (l : LogLevel) (src msg : string) (err : option string)
  : Eff World unit :=
  fun w => (Return tt, write_console (logger_lines (isDev w) l src msg err) w).
Definition error (src msg : string) (err : option string) := log LError src msg err.
Definition warn (src msg : string) := log LWarn src msg None.
Definition info (src msg : string) := log LInfo src msg None.
Definition debug (src msg : string) := log LDebug src msg None.
End logger.

(** *** Notion *)

Definition matches (f : Filter) (p : Page) : bool :=
  match f with
  | Email_equals e => Email (properties p) =? e
  | Referral_Code_equals c => Referral_Code (properties p) =? c
  end.

(** [notion.databases.query({ database_id, filter })]: the first page (at
    most 100 rows) of the rows that satisfy the filter, or an exception. *)
Definition notion_databases_query (database_id : string) (f : Filter)
  : Eff World (list Page) :=
  fun w =>
    let w' := record_event (Query database_id f) w in
    match notion_fault w (count_events is_notion w) with
    | Some e => (Throw e, w')
    | None => (Return (firstn 100 (filter (matches f) (database w))), w')
    end.

(** [notion.pages.create({ parent: { database_id }, properties })]: appends
    the row and returns it with its new id, or throws and creates nothing. *)
Definition notion_pages_create (database_id : string) (props : Properties)
  : Eff World Page :=
  fun w =>
    let w' := record_event (Create database_id props) w in
    match notion_fault w (count_events is_notion w) with
    | Some e => (Throw e, w')
    | None =>
        let page := mkPage (notion_ids w (List.length (database w))) props in
        (Return page, set_database (fun db => (db ++ [page])%list) w')
    end.

(** *** Upstash *)

(** [limiter.limit(key)] for a limiter built with the given policy. *)
Definition ratelimit_limit (policy : Limiter) (key : string)
  : Eff World RatelimitResponse :=
  fun w =>
    (limiter_answer w (count_events is_limit w) policy key,
     record_event (Limit policy key) w).

(** *** Resend *)

Definition resend_emails_send (mail : Mail) : Eff World SendResponse :=
  fun w => (resend_answer w (count_events is_send w) mail, record_event (Send mail) w).

(** *** Math.random inside the world *)

Definition generateCode_in_world (length : Z) : Eff World string :=
  fun w => let (code, g) := generateCode length (rng w) in (Return code, set_rng g w).

(** ** Requests and responses *)

(** The JSON object of a request at the type the routes document: every
    field that is present is a string. *)
Definition Fields : Type := list (string * string).

Record Request : Type := mkRequest {
  x_forwarded_for : option string;   (* request.headers.get("x-forwarded-for") *)
  x_real_ip : option string;         (* request.headers.get("x-real-ip") *)
  body : option (json Fields)        (* None: the body text is not JSON *)
}.

(** [NextResponse.json(body, { status })] *)
Record Response : Type := NextResponse_json { response_body : jobject; status : nat }.

(** [await request.json()] *)
Definition request_json (request : Request) : Eff World (json Fields) :=
  match body request with
  | None => throw (Js.ErrorObject "SyntaxError" "Unexpected token in JSON")
  | Some j => ret j
  end.

(** [const { ... } = value]: destructuring [null] throws a [TypeError]; the
    fields of an object are read afterwards with [prop]. *)
Definition destructure {S F : Type} (value : json F) : Eff S F :=
  match value with
  | Object o => ret o
  | Null => throw (Js.ErrorObject "TypeError" "Cannot destructure 'null'")
  end.

(** ** src/app/api/notion/route.ts *)

Module NotionRoute.

(** [firstname || email.split("@")[0]] *)
Definition name_of (firstname : option string) (email : string) : string :=
  match Js.truthy firstname with
  | Some f => f
  | None => fst (Js.split "@" email)
  end.

(** The referrer lookup of lines 45-68: the id of the first row whose
    referral code equals [referredBy], [null] when [referredBy] is falsy,
    when no row is found and when the query throws. *)
Definition find_referrer (db_id : string) (referredBy : option string)
  : Eff World (option string) :=
  match Js.truthy referredBy with
  | Some referredBy =>
      logger.debug "notion-api" "Looking up referrer" ;;
      try_catch
        (results <- notion_databases_query db_id (Referral_Code_equals referredBy) ;;
         match results with
         | first :: _ =>
             logger.debug "notion-api" "Found referrer" ;;
             ret (Some (id first))
         | [] =>
             logger.warn "notion-api" "Referrer not found" ;;
             ret None
         end)
        (fun error =>
           logger.error "notion-api" "Error looking up referrer" (Some (as_Error error)) ;;
           (* Continue without referrer - don't block the signup *)
           ret None)
  | None => ret None
  end.

Definition POST (request : Request) : Eff World Response :=
  (* requestId = crypto.randomUUID() is only written to the log contexts *)
  try_catch
    (json <- request_json request ;;
     o <- destructure json ;;
     let email := prop "email" o in
     let firstname := prop "firstname" o in
     let referredBy := prop "referredBy" o in
     logger.debug "notion-api" "Processing waitlist submission" ;;
     match Js.truthy email with
     | None =>
         logger.warn "notion-api" "Missing email in request" ;;
         ret (NextResponse_json [("error", JStr "Email is required")] 400)
     | Some email =>
         logger.debug "notion-api" "Checking for existing email" ;;
         db_id <- gets NOTION_DB_ID ;;
         existing <- notion_databases_query db_id (Email_equals email) ;;
         if (0 <? List.length existing)%nat then
           logger.info "notion-api" "Duplicate email submission attempted" ;;
           ret (NextResponse_json [("error", JStr "You're already on the waitlist!")] 409)
         else
           code <- generateCode_in_world generateCode_default_length ;;
           logger.debug "notion-api" "Generated referral code" ;;
           referrerPageId <- find_referrer db_id referredBy ;;
           logger.debug "notion-api" "Creating new page in Notion" ;;
           page <- notion_pages_create db_id
                     {| Name := name_of firstname email;
                        Email := email;
                        Referral_Code := code;
                        Referred_By := match Js.truthy referredBy with
                                       | Some r => [r]
                                       | None => []
                                       end;
                        Referrer := match Js.truthy referrerPageId with
                                    | Some i => [i]
                                    | None => []
                                    end |} ;;
           logger.info "notion-api" "Successfully added to waitlist" ;;
           ret (NextResponse_json
                  [("success", JBool true);
                   ("message", JStr "Added to waitlist");
                   ("code", JStr code);
                   ("notionId", JStr (id page))]
                  200)
     end)
    (fun error =>
       let errorMessage := getErrorMessage error in
       logger.error "notion-api" "Error processing waitlist submission" (Some (as_Error error)) ;;
       ret (NextResponse_json
              [("error", JStr "Failed to save to Notion");
               ("details", JStr errorMessage);
               ("success", JBool false)]
              500)).

End NotionRoute.

(** ** src/app/api/mail/route.ts *)

Module MailRoute.

(** 2 requests per minute from the same IP address, sliding window. *)
Definition ratelimit : Limiter := slidingWindow 2 (mkDuration 1 Minutes).

(** Lines 27-34: the first entry of x-forwarded-for, else x-real-ip, else
    the loopback address. *)
Definition client_ip (request : Request) : string :=
  match Js.truthy (x_forwarded_for request) with
  | Some xForwardedForHeader => Js.trim (fst (Js.split "," xForwardedForHeader))
  | None =>
      match x_real_ip request with
      | Some real => Js.trim real
      | None => "127.0.0.1"
      end
  end.

Definition POST (request : Request) : Eff World Response :=
  try_catch
    (let ip := client_ip request in
     logger.debug "mail-api" "Processing email request" ;;
     result <- ratelimit_limit ratelimit ip ;;
     if negb (success result) then
       logger.warn "mail-api" "Rate limit exceeded" ;;
       ret (NextResponse_json [("error", JStr "Too many requests!")] 429)
     else
       json <- request_json request ;;
       o <- destructure json ;;
       let email := prop "email" o in
       let name := prop "name" o in
       match Js.truthy email with
       | None =>
           logger.warn "mail-api" "Missing email in request" ;;
           ret (NextResponse_json [("error", JStr "Email is required")] 400)
       | Some email =>
           logger.debug "mail-api" "Sending email via Resend" ;;
           sender <- gets RESEND_FROM_EMAIL ;;
           sent <- resend_emails_send
                     {| from := match Js.truthy sender with Some f => f | None => "" end;
                        to := [email];
                        subject := "Welcome to Next.js + Notion CMS Waitlist";
                        userFirstname := name |} ;;
           match send_error sent with
           | Some (error_message, error_name) =>
               logger.error "mail-api" "Resend API error" (Some "Error") ;;
               ret (NextResponse_json [("error", JStr error_message)] 500)
           | None =>
               match data sent with
               | None =>
                   logger.error "mail-api" "Resend returned no data" None ;;
                   ret (NextResponse_json [("error", JStr "Failed to send email")] 500)
               | Some _ =>
                   logger.info "mail-api" "Email sent successfully" ;;
                   ret (NextResponse_json [("message", JStr "Email sent successfully")] 200)
               end
           end
       end)
    (fun error =>
       logger.error "mail-api" "Unexpected error in mail API" (Some (as_Error error)) ;;
       ret (NextResponse_json [("error", JStr "Internal server error")] 500)).

End MailRoute.

(** ** Regular expressions

    Enough of the RegExp syntax for [/^[^\s@]+@[^\s@]+\.[^\s@]+$/]:
    character sets, concatenation and [+]. [test] on a pattern anchored by
    [^] and [$] asks whether the whole input is in the language, which is
    decided here with derivatives. *)

Module Regex.

Inductive regex : Type :=
| Void
| Eps
| Chars (set : ascii -> bool)
| Cat (r1 r2 : regex)
| Alt (r1 r2 : regex)
| Star (r : regex).

Definition Plus (r : regex) : regex := Cat r (Star r).
Definition Char (c : ascii) : regex := Chars (Ascii.eqb c).

Fixpoint nullable (r : regex) : bool :=
  match r with
  | Void => false
  | Eps => true
  | Chars _ => false
  | Cat r1 r2 => nullable r1 && nullable r2
  | Alt r1 r2 => nullable r1 || nullable r2
  | Star _ => true
  end.

Fixpoint deriv (c : ascii) (r : regex) : regex :=
  match r with
  | Void => Void
  | Eps => Void
  | Chars set => if set c then Eps else Void
  | Cat r1 r2 =>
      if nullable r1 then Alt (Cat (deriv c r1) r2) (deriv c r2)
      else Cat (deriv c r1) r2
  | Alt r1 r2 => Alt (deriv c r1) (deriv c r2)
  | Star r1 => Cat (deriv c r1) (Star r1)
  end.

(** [/^r$/.test(input)] *)
Fixpoint test (r : regex) (input : string) : bool :=
  match input with
  | EmptyString => nullable r
  | String c rest => test (deriv c r) rest
  end.

(** The language of a pattern, for the correctness of [test]. *)
Inductive matches : regex -> string -> Prop :=
| m_eps : matches Eps ""
| m_chars set c : set c = true -> matches (Chars set) (String c "")
| m_cat r1 r2 u v : matches r1 u -> matches r2 v -> matches (Cat r1 r2) (u ++ v)
| m_alt_l r1 r2 u : matches r1 u -> matches (Alt r1 r2) u
| m_alt_r r1 r2 u : matches r2 u -> matches (Alt r1 r2) u
| m_star_nil r : matches (Star r) ""
| m_star_cons r u v : matches r u -> matches (Star r) v -> matches (Star r) (u ++ v).

(** A word of a character set: non-empty and made of its characters. *)
Definition word (set : ascii -> bool) (u : string) : Prop :=
  u <> "" /\ Forall (fun c => set c = true) (list_ascii_of_string u).

End Regex.

(** ** src/components/form.tsx *)

Module Form.

Record FormData : Type := mkFormData { email : string; name : string }.

Record State : Type := mkState {
  step : nat;
  formData : FormData;
  loading : bool;
  success : bool;
  shareLink : string
}.

(** The initial values of the [useState] hooks. *)
Definition initial : State := mkState 1 (mkFormData "" "") false false "".

(** A settled [fetch]: the status and the body, already read and parsed
    ([None]: the body is not JSON). *)
Record HttpResponse : Type := mkHttp {
  status : nat;
  body : option (json jobject)
}.

(** [response.ok] *)
Definition ok (r : HttpResponse) : bool := (200 <=? status r)%nat && (status r <=? 299)%nat.

(** What the handler does to the outside. *)
Inductive UiEffect : Type :=
| Fetch (url : string) (payload : Fields)   (* fetch(url, { method: 'POST', body: JSON.stringify(payload) }) *)
| ToastError (msg : jval)                   (* toast.error(msg) *)
| ToastSuccess (msg : string)               (* toast.success(msg) *)
| OnSuccessChange (success : bool)          (* onSuccessChange?.(success) *)
| Confetti (delay : nat).                   (* setTimeout(() => confetti(...), delay) *)

Definition is_fetch (e : UiEffect) : bool :=
  match e with Fetch _ _ => true | _ => false end.
Definition is_toast (e : UiEffect) : bool :=
  match e with ToastError _ | ToastSuccess _ => true | _ => false end.

(** The page the component lives in. [network] says how a [fetch] to a URL
    with a payload settles; [None] is a rejected promise (a [TypeError]). *)
Record Browser : Type := mkBrowser {
  state : State;
  refCode : option string;                  (* searchParams.get('ref') *)
  origin : string;                          (* window.location.origin *)
  onSuccessChange : bool;                   (* whether the prop is given *)
  network : string -> Fields -> option HttpResponse;
  isDev : bool;
  effects : list UiEffect;
  console : list LogEntry
}.

Definition set_state (f : State -> State) (b : Browser) : Browser :=
  mkBrowser (f (state b)) (refCode b) (origin b) (onSuccessChange b) (network b)
            (isDev b) (effects b) (console b).

Definition perform (e : UiEffect) (b : Browser) : Browser :=
  mkBrowser (state b) (refCode b) (origin b) (onSuccessChange b) (network b)
            (isDev b) (effects b ++ [e])%list (console b).

Definition write_console (ls : list LogEntry) (b : Browser) : Browser :=
  mkBrowser (state b) (refCode b) (origin b) (onSuccessChange b) (network b)
            (isDev b) (effects b) (console b ++ ls)%list.

Module logger.
Definition log (l : LogLevel) (src msg : string) (err : option string)
  : Eff Browser unit :=
  fun b => (Return tt, write_console (logger_lines (isDev b) l src msg err) b).
Definition error (src msg : string) (err : option string) := log LError src msg err.
Definition warn (src msg : string) := log LWarn src msg None.
Definition info (src msg : string) := log LInfo src msg None.
Definition debug (src msg : string) := log LDebug src msg None.
End logger.

Definition with_step (n : nat) (st : State) : State :=
  mkState n (formData st) (loading st) (success st) (shareLink st).
Definition setStep (n : nat) : Eff Browser unit := modify (set_state (with_step n)).
Definition setFormData (d : FormData) : Eff Browser unit :=
  modify (set_state (fun st => mkState (step st) d (loading st) (success st) (shareLink st))).
Definition with_loading (l : bool) (st : State) : State :=
  mkState (step st) (formData st) l (success st) (shareLink st).
Definition setLoading (l : bool) : Eff Browser unit := modify (set_state (with_loading l)).
Definition setSuccess (v : bool) : Eff Browser unit :=
  modify (set_state (fun st => mkState (step st) (formData st) (loading st) v (shareLink st))).
Definition setShareLink (l : string) : Eff Browser unit :=
  modify (set_state (fun st => mkState (step st) (formData st) (loading st) (success st) l)).

Definition toast_error (msg : jval) : Eff Browser unit := modify (perform (ToastError msg)).
Definition toast_success (msg : string) : Eff Browser unit := modify (perform (ToastSuccess msg)).

(** [await fetch(url, { method: 'POST', headers, body: JSON.stringify(payload) })] *)
Definition fetch (url : string) (payload : Fields) : Eff Browser HttpResponse :=
  fun b =>
    let b' := perform (Fetch url payload) b in
    match network b url payload with
    | Some response => (Return response, b')
    | None => (Throw (Js.ErrorObject "TypeError" "Failed to fetch"), b')
    end.

(** [await response.json()] *)
Definition response_json (r : HttpResponse) : Eff Browser (json jobject) :=
  match body r with
  | Some j => ret j
  | None => throw (Js.ErrorObject "SyntaxError" "Unexpected token in JSON")
  end.

(** [value.key]: reading a property of [null] throws a [TypeError]. *)
Definition member (value : json jobject) (key : string) : Eff Browser (option jval) :=
  match value with
  | Object o => ret (prop key o)
  | Null => throw (Js.ErrorObject "TypeError" "Cannot read properties of null")
  end.

(** [[^\s@]] *)
Definition not_space_or_at (c : ascii) : bool :=
  negb (Js.isWhiteSpace c || Ascii.eqb c "@").

(** [/^[^\s@]+@[^\s@]+\.[^\s@]+$/] *)
Definition emailRegex : Regex.regex :=
  Regex.Cat (Regex.Plus (Regex.Chars not_space_or_at))
    (Regex.Cat (Regex.Char "@")
       (Regex.Cat (Regex.Plus (Regex.Chars not_space_or_at))
          (Regex.Cat (Regex.Char ".")
             (Regex.Plus (Regex.Chars not_space_or_at))))).

Definition isValidEmail (email : string) : bool := Regex.test emailRegex email.

(** The object sent to both routes; [JSON.stringify] drops [referredBy]
    when it is [undefined]. *)
Definition payload_of (formData : FormData) (refCode : option string) : Fields :=
  ([("firstname", match Js.truthy (Some (name formData)) with
                  | Some n => n
                  | None => fst (Js.split "@" (email formData))
                  end);
    ("email", email formData)]
   ++ match Js.truthy refCode with
      | Some r => [("referredBy", r)]
      | None => []
      end)%list.

Definition handleSubmit : Eff Browser unit :=
  (* e.preventDefault(); sessionId is only written to the log contexts *)
  st <- gets state ;;                 (* the render's values, as the closure sees them *)
  let formData := formData st in
  if (step st =? 1)%nat then
    if (email formData =? "") || negb (isValidEmail (email formData)) then
      logger.warn "form" "Invalid email submitted" ;;
      toast_error (JStr "Please enter a valid email address")
    else
      logger.debug "form" "Step 1 completed, moving to step 2" ;;
      setStep 2
  else
    try_catch_finally
      (setLoading true ;;
       logger.info "form" "Starting form submission" ;;
       refCode <- gets refCode ;;
       let payload := payload_of formData refCode in
       logger.debug "form" "Calling mail API" ;;
       mailRes <- fetch "/api/mail" payload ;;
       if negb (ok mailRes) then
         logger.error "form" "Mail API request failed" (Some "Error") ;;
         throw (Js.new_Error (if (status mailRes =? 429)%nat then "Rate limited" else "Email failed"))
       else
         logger.debug "form" "Mail API succeeded, calling notion API" ;;
         notionRes <- fetch "/api/notion" payload ;;
         if negb (ok notionRes) then
           errData <- try_catch (response_json notionRes)
                        (fun _ => ret (Object [("error", JStr "Unknown error")])) ;;
           errData_error <- member errData "error" ;;
           logger.error "form" "Notion API request failed" (Some "Error") ;;
           if (status notionRes =? 409)%nat then
             toast_error (match errData_error with
                          | Some v => if jtruthy errData_error then v
                                      else JStr "You're already on the waitlist!"
                          | None => JStr "You're already on the waitlist!"
                          end)
           else
             throw (Js.new_Error (if (status notionRes =? 429)%nat then "Rate limited" else "Notion failed"))
         else
           json <- response_json notionRes ;;
           o <- destructure json ;;
           let code := prop "code" o in
           origin <- gets origin ;;
           let link := origin ++ "/?ref=" ++ template code in
           setShareLink link ;;
           logger.info "form" "Form submission completed successfully" ;;
           toast_success "You're on the waitlist!" ;;
           setSuccess true ;;
           given <- gets onSuccessChange ;;
           (if given : bool then modify (perform (OnSuccessChange true)) else ret tt) ;;
           modify (perform (Confetti 150)) ;;
           setFormData (mkFormData "" ""))
      (fun error =>
         logger.error "form" "Form submission failed" (Some (as_Error error)) ;;
         if Js.instanceof_Error error then
           toast_error
             (JStr (if getErrorMessage error =? "Rate limited"
                    then "Too many attempts. Try again later."
                    else "Something went wrong. Try again."))
         else ret tt)
      (set_state (with_loading false)).

(** [resetForm] *)
Definition resetForm : Eff Browser unit :=
  setStep 1 ;;
  setFormData (mkFormData "" "") ;;
  setSuccess false ;;
  setShareLink "" ;;
  given <- gets onSuccessChange ;;
  if given : bool then modify (perform (OnSuccessChange false)) else ret tt.

End Form.

(** ** Vocabulary of the properties *)

(** The request carries a JSON object without an [email] field. *)
Definition lacks_email (request : Request) : Prop :=
  exists o, body request = Some (Object o) /\ prop "email" o = None.

(** A handler answers with [code] and calls no collaborator at all: no
    limiter update, no store query, no row created, no mail sent. *)
Definition answers_without_calls (POST : Request -> Eff World Response)
           (code : nat) (request : Request) (w : World) : Prop :=
  (exists response, fst (POST request w) = Return response /\ status response = code)
  /\ events (snd (POST request w)) = events w
  /\ database (snd (POST request w)) = database w.

(** Some row of the database has this email. *)
Definition enrolled (email : string) (w : World) : bool :=
  existsb (matches (Email_equals email)) (database w).

(** The rows with this referral code, in database order. *)
Definition referrers (code : string) (w : World) : list Page :=
  filter (matches (Referral_Code_equals code)) (database w).

(** The limiter refuses the next call of [limit] with this policy and key. *)
Definition denies (w : World) (policy : Limiter) (key : string) : bool :=
  match limiter_answer w (count_events is_limit w) policy key with
  | Return r => negb (success r)
  | Throw _ => false
  end.

(** A world for the examples: an empty database, collaborators that answer,
    and a fixed sample source. *)
Definition page_id (n : nat) : string := "page-" ++ String (ascii_of_nat (48 + n)) "".

Definition quiet_world : World :=
  {| database := [];
     notion_fault := fun _ => None;
     notion_ids := page_id;
     limiter_answer := fun _ policy _ => Return (mkLimit true (tokens policy) 1);
     resend_answer := fun _ _ => Return (mkSend (Some "msg-1") None);
     rng := rng_const (Qmake 1 2);
     isDev := false;
     NOTION_DB_ID := "db";
     RESEND_FROM_EMAIL := Some "hello@example.com";
     events := [];
     console := [] |}.

(** The same world with a limiter that refuses every call. *)
Definition limited_world : World :=
  {| database := [];
     notion_fault := fun _ => None;
     notion_ids := page_id;
     limiter_answer := fun _ policy _ => Return (mkLimit false (tokens policy) 0);
     resend_answer := fun _ _ => Return (mkSend (Some "msg-1") None);
     rng := rng_const (Qmake 1 2);
     isDev := false;
     NOTION_DB_ID := "db";
     RESEND_FROM_EMAIL := Some "hello@example.com";
     events := [];
     console := [] |}.

(** A limiter that has room for [tokens] calls and then refuses: a burst of
    requests inside one window. *)
Definition burst_world : World :=
  {| database := [];
     notion_fault := fun _ => None;
     notion_ids := page_id;
     limiter_answer := fun n policy _ =>
                         Return (mkLimit (n <? tokens policy)%nat (tokens policy)
                                         (tokens policy - S n));
     resend_answer := fun _ _ => Return (mkSend (Some "msg-1") None);
     rng := rng_const (Qmake 1 2);
     isDev := false;
     NOTION_DB_ID := "db";
     RESEND_FROM_EMAIL := Some "hello@example.com";
     events := [];
     console := [] |}.

(** The world after [a@b.com] has enrolled in [quiet_world]. *)
Definition world_with_row : World :=
  snd (NotionRoute.POST (mkRequest None None (Some (Object [("email", "a@b.com")]))) quiet_world).

(** A world whose second Notion call (the referrer lookup) throws. *)
Definition flaky_world : World :=
  {| database := database world_with_row;
     notion_fault := fun n => if (n =? 1)%nat
                              then Some (Js.ErrorObject "APIResponseError" "service_unavailable")
                              else None;
     notion_ids := page_id;
     limiter_answer := limiter_answer quiet_world;
     resend_answer := resend_answer quiet_world;
     rng := rng_const (Qmake 1 4);
     isDev := false;
     NOTION_DB_ID := "db";
     RESEND_FROM_EMAIL := None;
     events := [];
     console := [] |}.

Definition json_request (o : Fields) : Request := mkRequest None None (Some (Object o)).

(** ** The key of the mail limiter, in the words of the specification *)

(** Every character of [s] is white space. *)
Definition all_white (s : string) : Prop :=
  Forall (fun c => Js.isWhiteSpace c = true) (list_ascii_of_string s).

(** [key] is [text] trimmed: what is cut off at both ends is white space,
    and what is left neither starts nor ends with white space. *)
Definition trimmed_from (text key : string) : Prop :=
  (exists before after,
     text = before ++ key ++ after /\ all_white before /\ all_white after)
  /\ (key = ""
      \/ (exists c rest, key = String c rest /\ Js.isWhiteSpace c = false)
         /\ (exists front c, key = front ++ String c "" /\ Js.isWhiteSpace c = false)).

(** [entry] is the first entry of the comma-separated [header]: the text
    before its first comma, or all of it when it has no comma. *)
Definition first_entry (header entry : string) : Prop :=
  (header = entry \/ exists rest, header = entry ++ String ","%char rest)
  /\ Forall (fun c => c <> ","%char) (list_ascii_of_string entry).

(** [key] is the caller's IP as the specification describes it: the first
    entry of a non-empty [x-forwarded-for] header, trimmed; without such a
    header the [x-real-ip] header, trimmed; without either, 127.0.0.1. *)
Definition caller_ip (request : Request) (key : string) : Prop :=
  match x_forwarded_for request with
  | Some (String c header) =>
      exists entry, first_entry (String c header) entry /\ trimmed_from entry key
  | _ =>
      match x_real_ip request with
      | Some real => trimmed_from real key
      | None => key = "127.0.0.1"
      end
  end.

(** ** Vocabulary of the form's properties *)

(** The effects performed between two states of the page. *)
Definition issued (b b' : Form.Browser) : list Form.UiEffect :=
  skipn (List.length (Form.effects b)) (Form.effects b').

(** The payload of a submission and how the two calls would settle. *)
Definition payload (b : Form.Browser) : Fields :=
  Form.payload_of (Form.formData (Form.state b)) (Form.refCode b).
Definition mail_outcome (b : Form.Browser) : option Form.HttpResponse :=
  Form.network b "/api/mail" (payload b).
Definition notion_outcome (b : Form.Browser) : option Form.HttpResponse :=
  Form.network b "/api/notion" (payload b).

(** A call failed: the network failed or the status is not 2xx. *)
Definition failed (x : option Form.HttpResponse) : bool :=
  match x with
  | Some r => negb (Form.ok r)
  | None => true
  end.

(** A step-2 submission succeeds when both calls answer 2xx and the second
    body can be destructured. *)
Definition succeeds (b : Form.Browser) : bool :=
  negb (failed (mail_outcome b))
  && match notion_outcome b with
     | Some r => Form.ok r && match Form.body r with Some (Object _) => true | _ => false end
     | None => false
     end.

Definition already_enrolled : jval := JStr "You're already on the waitlist!".
Definition too_many_attempts : jval := JStr "Too many attempts. Try again later.".
Definition something_went_wrong : jval := JStr "Something went wrong. Try again.".

(** The message of a failed submission in the words of the specification:
    by status alone, one of three texts. *)
Definition claimed_toast (mail notion : option Form.HttpResponse) : jval :=
  match mail with
  | None => something_went_wrong
  | Some m =>
      if negb (Form.ok m) then
        if (Form.status m =? 429)%nat then too_many_attempts else something_went_wrong
      else
        match notion with
        | None => something_went_wrong
        | Some n =>
            if (Form.status n =? 409)%nat then already_enrolled
            else if (Form.status n =? 429)%nat then too_many_attempts
            else something_went_wrong
        end
  end.

(** The error text that the form reads from a failed enrollment response:
    the [error] of its body when truthy, "Unknown error" when the body is
    not JSON, nothing when there is no such text. A [null] body cannot be
    read at all. *)
Definition error_text (r : Form.HttpResponse) : option (option jval) :=
  match Form.body r with
  | None => Some (Some (JStr "Unknown error"))
  | Some Null => None
  | Some (Object o) =>
      Some (match prop "error" o with
            | Some v => if jtruthy (Some v) then Some v else None
            | None => None
            end)
  end.

(** The message of a failed submission as the form computes it. *)
Definition failure_toast (mail notion : option Form.HttpResponse) : jval :=
  match mail with
  | None => something_went_wrong
  | Some m =>
      if negb (Form.ok m) then
        if (Form.status m =? 429)%nat then too_many_attempts else something_went_wrong
      else
        match notion with
        | None => something_went_wrong
        | Some n =>
            if Form.ok n then something_went_wrong
            else
              match error_text n with
              | None => something_went_wrong
              | Some text =>
                  if (Form.status n =? 409)%nat then
                    match text with Some v => v | None => already_enrolled end
                  else if (Form.status n =? 429)%nat then too_many_attempts
                  else something_went_wrong
              end
        end
  end.

(** The body is a JSON object and, on a 409, its error text (if any) is the
    one the enrollment route sends. *)
Definition routes_error_body (r : Form.HttpResponse) : Prop :=
  exists o, Form.body r = Some (Object o)
            /\ (Form.status r = 409 -> jtruthy (prop "error" o) = true ->
                prop "error" o = Some already_enrolled).

(** A response of a route as the browser receives it. *)
Definition delivered (r : Response) : Form.HttpResponse :=
  Form.mkHttp (status r) (Some (Object (response_body r))).

(** The network of a page whose two URLs are served by the routes of this
    application, running in [w] behind the given headers; the enrollment
    call sees the world that the mail call has left. *)
Definition served_by (w : World) (forwarded real : option string)
  : string -> Fields -> option Form.HttpResponse :=
  fun url fields =>
    let request := mkRequest forwarded real (Some (Object fields)) in
    if url =? "/api/mail" then
      match fst (MailRoute.POST request w) with
      | Return r => Some (delivered r)
      | Throw _ => None
      end
    else if url =? "/api/notion" then
      match fst (NotionRoute.POST request (snd (MailRoute.POST request w))) with
      | Return r => Some (delivered r)
      | Throw _ => None
      end
    else None.

(** Pages for the examples. *)
Definition page_with (st : Form.State) (net : string -> Fields -> option Form.HttpResponse)
  : Form.Browser :=
  Form.mkBrowser st None "https://waitlist.example" true net false [] [].

Definition at_step (n : nat) (email : string) : Form.State :=
  Form.mkState n (Form.mkFormData email "") false false "".

Definition answering (mail notion : option Form.HttpResponse)
  : string -> Fields -> option Form.HttpResponse :=
  fun url _ => if url =? "/api/mail" then mail else notion.

Definition mail_sent_response : Form.HttpResponse :=
  Form.mkHttp 200 (Some (Object [("message", JStr "Email sent successfully")])).
(** * Properties of [generateCode] *)

Lemma alphabet_unambiguous : forall c, In c alphabet <-> unambiguous c = true.
Proof.
  intro c. split.
  - intro H. unfold alphabet in H. simpl in H.
    repeat (destruct H as [H | H]; [subst c; reflexivity | ]). contradiction.
  - destruct c as [b0 b1 b2 b3 b4 b5 b6 b7].
    destruct b0, b1, b2, b3, b4, b5, b6, b7; vm_compute; intro H;
      try discriminate H; tauto.
Qed.

Lemma alphabet_NoDup : NoDup alphabet.
Proof.
  unfold alphabet. simpl.
  repeat (constructor; [simpl; intro H;
    repeat (destruct H as [H | H]; [discriminate H | ]); contradiction | ]).
  constructor.
Qed.

Lemma index_in_alphabet (r : Q) :
  (0 <= r)%Q -> (r < 1)%Q ->
  exists c, Js.index REFERRAL_CODE_CHARSET (Math_floor (r * inject_Z 32)) = Some c
            /\ In c alphabet.
Proof.
  intros H0 H1. unfold Math_floor.
  assert (Hlo : (0 <= Qfloor (r * inject_Z 32))%Z).
  { change 0%Z with (Qfloor 0). apply Qfloor_resp_le.
    apply Qmult_le_0_compat; [exact H0 | discriminate]. }
  assert (Hhi : (Qfloor (r * inject_Z 32) < 32)%Z).
  { rewrite Zlt_Qlt. apply Qle_lt_trans with (r * inject_Z 32)%Q.
    - apply Qfloor_le.
    - setoid_replace (inject_Z 32) with (1 * inject_Z 32)%Q at 2 by ring.
      apply Qmult_lt_compat_r; [reflexivity | exact H1]. }
  remember (Qfloor (r * inject_Z 32)) as i eqn:Hi. clear Hi.
  unfold Js.index. destruct (Z.ltb_spec i 0) as [Hneg | _]; [lia | ].
  assert (Hn : (Z.to_nat i < 32)%nat) by lia.
  remember (Z.to_nat i) as n eqn:Hn'. clear Hn' Hlo Hhi i.
  unfold alphabet.
  do 32 (destruct n as [ | n]; [eexists; split; [reflexivity | simpl; tauto] | ]).
  lia.
Qed.

Lemma append_char_length (code : string) (c : ascii) :
  String.length (code ++ String c EmptyString) = S (String.length code).
Proof. induction code as [ | a code IH]; simpl; [reflexivity | now rewrite IH]. Qed.

Lemma list_ascii_app (s t : string) :
  list_ascii_of_string (s ++ t) = (list_ascii_of_string s ++ list_ascii_of_string t)%list.
Proof. induction s as [ | a s IH]; simpl; [reflexivity | now rewrite IH]. Qed.

Lemma generateCode_loop_spec (todo : nat) :
  forall code g, fair g ->
    let out := fst (generateCode_loop todo code g) in
    String.length out = (String.length code + todo)%nat
    /\ (Forall (fun c => In c alphabet) (list_ascii_of_string code) ->
        Forall (fun c => In c alphabet) (list_ascii_of_string out)).
Proof.
  induction todo as [ | todo IH]; intros code g Hg.
  - simpl. split; [lia | tauto].
  - destruct (Hg (drawn g)) as [H0 H1].
    destruct (index_in_alphabet _ H0 H1) as [c [Hc Hin]].
    cbn [generateCode_loop]. unfold Math_random.
    change (Z.of_nat (String.length REFERRAL_CODE_CHARSET)) with 32%Z.
    rewrite Hc. cbn [Js.append_indexed].
    assert (Hg' : fair (mkRng (samples g) (S (drawn g)))) by exact Hg.
    destruct (IH (code ++ String c EmptyString) _ Hg') as [Hlen Hall].
    split.
    + rewrite Hlen, append_char_length. lia.
    + intro Hcode. apply Hall. rewrite list_ascii_app. apply Forall_app.
      split; [exact Hcode | constructor; [exact Hin | constructor]].
Qed.

Lemma generateCode_loop_grows (todo : nat) :
  forall code g,
    (String.length code + todo <= String.length (fst (generateCode_loop todo code g)))%nat.
Proof.
  induction todo as [ | todo IH]; intros code g.
  - simpl. lia.
  - cbn [generateCode_loop]. unfold Math_random.
    match goal with |- context [generateCode_loop todo ?c ?g'] => specialize (IH c g') end.
    assert (H : (S (String.length code) <=
                 String.length (Js.append_indexed code
                   (Js.index REFERRAL_CODE_CHARSET
                      (Math_floor (samples g (drawn g) *
                         inject_Z (Z.of_nat (String.length REFERRAL_CODE_CHARSET)))))))%nat).
    { destruct (Js.index _ _); cbn [Js.append_indexed].
      - rewrite append_char_length. lia.
      - clear. induction code; simpl; lia. }
    lia.
Qed.

(** Whatever [Math.random] returns, the default call yields some text. *)
Lemma generateCode_nonempty (g : Rng) :
  fst (generateCode generateCode_default_length g) <> "".
Proof.
  intro H. pose proof (generateCode_loop_grows 8 "" g) as Hlen.
  unfold generateCode, generateCode_default_length in H.
  change (Z.to_nat 8) with 8%nat in H. rewrite H in Hlen. simpl in Hlen. lia.
Qed.

Lemma rng_const_fair (q : Q) : (0 <= q)%Q -> (q < 1)%Q -> fair (rng_const q).
Proof. intros H0 H1 n. split; assumption. Qed.

Example generateCode_half : fst (generateCode 8 (rng_const (Qmake 1 2))) = "SSSSSSSS".
Proof. reflexivity. Qed.

Example generateCode_negative : fst (generateCode (-3) (rng_const (Qmake 1 2))) = "".
Proof. reflexivity. Qed.

(** Outside the contract of [Math.random] the indexing yields [undefined]. *)
Example generateCode_unfair : fst (generateCode 1 (rng_const (Qmake 3 2))) = "undefined".
Proof. reflexivity. Qed.

(** C1, as stated: the alphabet would have 33 symbols. It has 32, so the
    claim fails already for the default length. *)
Lemma generateCode_alphabet_33_fails :
  ~ code_in_alphabet_of 33 8 (rng_const (Qmake 1 2)).
Proof.
  unfold code_in_alphabet_of. intros [_ [_ [Hsize _]]].
  vm_compute in Hsize. discriminate Hsize.
Qed.

(** C1, amended: for every length >= 0 and every sample source that honours
    the contract of [Math.random], [generateCode length] returns a string of
    exactly [length] characters, each from the fixed alphabet; the alphabet
    has 32 distinct symbols, the uppercase letters and digits other than
    I, O, 0 and 1. *)
Theorem generateCode_alphabet_32 (length : Z) (g : Rng) :
  (0 <= length)%Z -> fair g -> code_in_alphabet_of 32 length g.
Proof.
  intros Hlen Hg. unfold code_in_alphabet_of, generateCode.
  destruct (generateCode_loop_spec (Z.to_nat length) "" g Hg) as [Hl Hall].
  repeat split.
  - rewrite Hl. simpl. lia.
  - apply Hall. constructor.
  - apply alphabet_NoDup.
  - apply alphabet_unambiguous.
  - apply alphabet_unambiguous.
Qed.

Lemma generateCode_alphabet_32_witness :
  (0 <= 8)%Z /\ fair (rng_const (Qmake 1 2))
  /\ code_in_alphabet_of 32 8 (rng_const (Qmake 1 2)).
Proof.
  assert (H8 : (0 <= 8)%Z) by lia.
  assert (Hf : fair (rng_const (Qmake 1 2))).
  { apply rng_const_fair; [discriminate | reflexivity]. }
  split; [exact H8 | split; [exact Hf | ]].
  exact (generateCode_alphabet_32 8 (rng_const (Qmake 1 2)) H8 Hf).
Defined.

(** * The world under the handlers *)

Lemma count_snoc {A} (p : A -> bool) (l : list A) (e : A) :
  List.length (filter p (l ++ [e]))
  = if p e then S (List.length (filter p l)) else List.length (filter p l).
Proof.
  rewrite filter_app, length_app. cbn. destruct (p e); cbn; lia.
Qed.

Lemma count_write_console p ls w : count_events p (write_console ls w) = count_events p w.
Proof. reflexivity. Qed.

Lemma count_set_rng p g w : count_events p (set_rng g w) = count_events p w.
Proof. reflexivity. Qed.

Lemma count_set_database p f w : count_events p (set_database f w) = count_events p w.
Proof. reflexivity. Qed.

Lemma count_record_event p e w :
  count_events p (record_event e w)
  = if p e then S (count_events p w) else count_events p w.
Proof. apply count_snoc. Qed.

Create Rewrite HintDb world.
#[local] Hint Rewrite count_write_console count_set_rng count_set_database
  count_record_event : world.

(** The first page of a query is non-empty exactly when some row matches. *)
Lemma first_page_nonempty {A} (p : A -> bool) (l : list A) :
  (0 <? List.length (firstn 100 (filter p l)))%nat = existsb p l.
Proof.
  induction l as [ | a l IH]; [reflexivity | ].
  cbn [filter existsb]. destruct (p a); [reflexivity | exact IH].
Qed.

Lemma first_page_head {A} (l : list A) :
  match firstn 100 l with x :: _ => Some x | [] => None end
  = match l with x :: _ => Some x | [] => None end.
Proof. destruct l; reflexivity. Qed.


Example split_a_b_com : fst (Js.split "@" "a@b.com") = "a".
Proof. reflexivity. Qed.

Example split_no_at : Js.split "@" "nobody" = ("nobody", []).
Proof. reflexivity. Qed.

Example split_forwarded : Js.split "," "1.2.3.4, 5.6.7.8" = ("1.2.3.4", [" 5.6.7.8"]).
Proof. reflexivity. Qed.

Example trim_spaces : Js.trim "  10.0.0.1 " = "10.0.0.1".
Proof. reflexivity. Qed.

(** Symbolic execution of a handler: unfold the monad and the collaborators,
    then compute, keeping the counters of calls folded. *)
Ltac run :=
  unfold NotionRoute.POST, MailRoute.POST, NotionRoute.find_referrer,
    try_catch, bind, ret, throw, gets, request_json, destructure,
    logger.debug, logger.warn, logger.info, logger.error, logger.log,
    notion_databases_query, notion_pages_create, ratelimit_limit,
    resend_emails_send, generateCode_in_world.

Ltac step :=
  cbn -[Nat.ltb firstn filter generateCode];
  autorewrite with world;
  cbn -[Nat.ltb firstn filter generateCode].

(** * POST /api/notion *)

(** The handler never throws: its [catch] turns every exception into a
    response. *)
Lemma NotionRoute_POST_returns request w :
  exists response, fst (NotionRoute.POST request w) = Return response.
Proof.
  unfold NotionRoute.POST, try_catch.
  match goal with |- context [match ?b w with _ => _ end] => destruct (b w) as [[a | e] w'] end.
  - exists a. reflexivity.
  - eexists. reflexivity.
Qed.

Lemma notion_missing_email request w :
  lacks_email request -> answers_without_calls NotionRoute.POST 400 request w.
Proof.
  intros [o [Hb He]]. unfold answers_without_calls. run. rewrite Hb. step. rewrite He. step.
  repeat split. eexists; split; reflexivity.
Qed.

(** C10: a body that is not JSON makes [request.json()] throw; the outer
    [catch] answers 500 with [success: false] and the error's details, and
    no call reaches the store. *)
Theorem unparseable_body_500 request w :
  body request = None ->
  exists details,
    fst (NotionRoute.POST request w)
    = Return (NextResponse_json [("error", JStr "Failed to save to Notion");
                                 ("details", JStr details);
                                 ("success", JBool false)] 500)
    /\ events (snd (NotionRoute.POST request w)) = events w
    /\ database (snd (NotionRoute.POST request w)) = database w.
Proof.
  intros Hb. run. rewrite Hb. step. eexists. repeat split.
Qed.

Lemma unparseable_body_500_witness :
  exists details,
    fst (NotionRoute.POST (mkRequest None None None) world_with_row)
    = Return (NextResponse_json [("error", JStr "Failed to save to Notion");
                                 ("details", JStr details);
                                 ("success", JBool false)] 500)
    /\ events (snd (NotionRoute.POST (mkRequest None None None) world_with_row))
       = events world_with_row
    /\ database (snd (NotionRoute.POST (mkRequest None None None) world_with_row))
       = database world_with_row.
Proof.
  apply (unparseable_body_500 (mkRequest None None None) world_with_row). reflexivity.
Defined.

(** A JSON [null] body is parseable, yet destructuring it throws as well. *)
Example null_body_500 :
  option_map status
    (match fst (NotionRoute.POST (mkRequest None None (Some Null)) quiet_world) with
     | Return r => Some r
     | Throw _ => None
     end) = Some 500.
Proof. reflexivity. Qed.

(** C3: with the store answering, a request whose email matches a row gets
    409 and the text "You're already on the waitlist!", the database is
    unchanged and no row is created; a request with an email (any non-empty
    text) that matches no row gets 200 and a non-empty code. *)
Theorem duplicate_check request w o e :
  body request = Some (Object o) ->
  Js.truthy (prop "email" o) = Some e ->
  (forall n, notion_fault w n = None) ->
  let w' := snd (NotionRoute.POST request w) in
  if enrolled e w then
    fst (NotionRoute.POST request w)
    = Return (NextResponse_json [("error", JStr "You're already on the waitlist!")] 409)
    /\ database w' = database w
    /\ events w' = (events w ++ [Query (NOTION_DB_ID w) (Email_equals e)])%list
  else
    exists code page,
      fst (NotionRoute.POST request w)
      = Return (NextResponse_json [("success", JBool true);
                                   ("message", JStr "Added to waitlist");
                                   ("code", JStr code);
                                   ("notionId", JStr (id page))] 200)
      /\ code <> ""
      /\ database w' = (database w ++ [page])%list.
Proof.
  intros Hb He Hup. run. rewrite Hb. step. rewrite He. step.
  rewrite ?Hup. step. rewrite first_page_nonempty. fold (enrolled e w).
  destruct (enrolled e w) eqn:Hen; step.
  - repeat split.
  - pose proof (generateCode_nonempty (rng w)) as Hne.
    destruct (generateCode generateCode_default_length (rng w)) as [code g] eqn:Hg. step.
    destruct (Js.truthy (prop "referredBy" o)) as [r | ] eqn:Hr; step.
    + rewrite ?Hup. step.
      destruct (firstn 100 _) as [ | first rest] eqn:Hf; step; rewrite ?Hup; step;
        (eexists; eexists (mkPage _ _);
         split; [reflexivity | split; [exact Hne | reflexivity]]).
    + rewrite ?Hup. step.
      eexists; eexists (mkPage _ _); split; [reflexivity | split; [exact Hne | reflexivity]].
Qed.

Lemma duplicate_check_witness :
  fst (NotionRoute.POST (json_request [("email", "a@b.com")]) world_with_row)
  = Return (NextResponse_json [("error", JStr "You're already on the waitlist!")] 409)
  /\ database (snd (NotionRoute.POST (json_request [("email", "a@b.com")]) world_with_row))
     = database world_with_row
  /\ events (snd (NotionRoute.POST (json_request [("email", "a@b.com")]) world_with_row))
     = (events world_with_row ++ [Query "db" (Email_equals "a@b.com")])%list.
Proof.
  apply (duplicate_check (json_request [("email", "a@b.com")]) world_with_row
           [("email", "a@b.com")] "a@b.com");
    [reflexivity | reflexivity | intro n; reflexivity].
Defined.

(** The text of the 409 contains the words of the specification. *)
Example conflict_text :
  String.index 0 "already on the waitlist" "You're already on the waitlist!" = Some 7.
Proof. reflexivity. Qed.

(** The first submission of the scenario: 200, the code drawn from the
    sample source, the row named after the local part. *)
Example first_enrollment :
  fst (NotionRoute.POST (json_request [("email", "a@b.com")]) quiet_world)
  = Return (NextResponse_json [("success", JBool true);
                               ("message", JStr "Added to waitlist");
                               ("code", JStr "SSSSSSSS");
                               ("notionId", JStr "page-0")] 200)
  /\ database world_with_row
     = [mkPage "page-0" (mkProperties "a" "a@b.com" "SSSSSSSS" [] [])].
Proof. split; reflexivity. Qed.

(** C4: a request that carries a referral code and passes the duplicate
    check is enrolled whatever the referrer lookup does. When the lookup
    answers with rows, the new row's relation holds the id of the first of
    them; when it answers with none, or throws, the relation is empty and
    the response is the same 200. *)
Theorem referrer_soft_fail request w o e r :
  body request = Some (Object o) ->
  Js.truthy (prop "email" o) = Some e ->
  Js.truthy (prop "referredBy" o) = Some r ->
  enrolled e w = false ->
  notion_fault w (count_events is_notion w) = None ->        (* the duplicate check is answered *)
  notion_fault w (2 + count_events is_notion w) = None ->    (* and so is the creation *)
  Forall (fun p => id p <> "") (database w) ->               (* ids are never empty *)
  exists code page,
    fst (NotionRoute.POST request w)
    = Return (NextResponse_json [("success", JBool true);
                                 ("message", JStr "Added to waitlist");
                                 ("code", JStr code);
                                 ("notionId", JStr (id page))] 200)
    /\ database (snd (NotionRoute.POST request w)) = (database w ++ [page])%list
    /\ Referred_By (properties page) = [r]
    /\ Referrer (properties page)
       = match notion_fault w (1 + count_events is_notion w) with
         | Some _ => []
         | None => match referrers r w with
                   | first :: _ => [id first]
                   | [] => []
                   end
         end.
Proof.
  intros Hb He Hr Hen H0 H2 Hids. simpl in H2. run. rewrite Hb. step. rewrite He. step.
  rewrite H0. step. rewrite first_page_nonempty. fold (enrolled e w). rewrite Hen. step.
  destruct (generateCode generateCode_default_length (rng w)) as [code g] eqn:Hg. step.
  rewrite Hr. step. unfold referrers.
  destruct (notion_fault w (S (count_events is_notion w))) as [err | ] eqn:H1; step.
  - rewrite H2. step.
    eexists; eexists (mkPage _ _); repeat split.
  - pose proof (first_page_head (filter (matches (Referral_Code_equals r)) (database w))) as Hh.
    destruct (firstn 100 _) as [ | first rest] eqn:Hf; step; rewrite H2; step.
    + destruct (filter _ _); [ | discriminate Hh].
      eexists; eexists (mkPage _ _); repeat split.
    + destruct (filter (matches (Referral_Code_equals r)) (database w))
        as [ | x l] eqn:Hfil; [discriminate Hh | ].
      injection Hh as <-.
      assert (Hin : In first (database w)).
      { eapply proj1. apply filter_In. rewrite Hfil. left. reflexivity. }
      rewrite Forall_forall in Hids. specialize (Hids _ Hin).
      unfold Js.truthy. destruct (String.eqb_spec (id first) ""); [contradiction | ].
      eexists; eexists (mkPage _ _); repeat split.
Qed.

(** The lookup throws in [flaky_world]; the enrollment succeeds without a
    relation. *)
Lemma referrer_soft_fail_witness :
  exists code page,
    fst (NotionRoute.POST (json_request [("email", "c@d.io"); ("referredBy", "SSSSSSSS")])
           flaky_world)
    = Return (NextResponse_json [("success", JBool true);
                                 ("message", JStr "Added to waitlist");
                                 ("code", JStr code);
                                 ("notionId", JStr (id page))] 200)
    /\ database (snd (NotionRoute.POST
                        (json_request [("email", "c@d.io"); ("referredBy", "SSSSSSSS")])
                        flaky_world))
       = (database flaky_world ++ [page])%list
    /\ Referred_By (properties page) = ["SSSSSSSS"]
    /\ Referrer (properties page) = [].
Proof.
  apply (referrer_soft_fail
           (json_request [("email", "c@d.io"); ("referredBy", "SSSSSSSS")]) flaky_world
           [("email", "c@d.io"); ("referredBy", "SSSSSSSS")] "c@d.io" "SSSSSSSS");
    try reflexivity.
  repeat constructor. discriminate.
Defined.

(** With the lookup answering, the same request is linked to the row of
    [a@b.com], whose code it quotes. *)
Example referrer_linked :
  let request := json_request [("email", "c@d.io"); ("referredBy", "SSSSSSSS")] in
  map (fun p => Referrer (properties p)) (database (snd (NotionRoute.POST request world_with_row)))
  = [[]; ["page-0"]].
Proof. reflexivity. Qed.

(** A code that no row carries: enrolled, no relation. *)
Example referrer_unknown :
  let request := json_request [("email", "c@d.io"); ("referredBy", "ZZZZZZZZ")] in
  option_map status (match fst (NotionRoute.POST request world_with_row) with
                     | Return r => Some r | Throw _ => None end) = Some 200
  /\ map (fun p => Referrer (properties p))
         (database (snd (NotionRoute.POST request world_with_row)))
     = [[]; []].
Proof. split; reflexivity. Qed.



(** A supplied firstname is the name; an empty one falls back like a
    missing one. *)
Example name_supplied :
  map (fun p => Name (properties p))
      (database (snd (NotionRoute.POST
                        (json_request [("email", "a@b.com"); ("firstname", "Ada")])
                        quiet_world))) = ["Ada"].
Proof. reflexivity. Qed.

Example name_empty_firstname :
  map (fun p => Name (properties p))
      (database (snd (NotionRoute.POST
                        (json_request [("email", "a@b.com"); ("firstname", "")])
                        quiet_world))) = ["a"].
Proof. reflexivity. Qed.

(** * POST /api/mail *)

Lemma MailRoute_POST_returns request w :
  exists response, fst (MailRoute.POST request w) = Return response.
Proof.
  unfold MailRoute.POST, try_catch.
  match goal with |- context [match ?b w with _ => _ end] => destruct (b w) as [[a | e] w'] end.
  - exists a. reflexivity.
  - eexists. reflexivity.
Qed.

Example ip_forwarded :
  MailRoute.client_ip (mkRequest (Some " 203.0.113.7 , 10.0.0.1") (Some "10.0.0.2") None)
  = "203.0.113.7".
Proof. reflexivity. Qed.

Example ip_real :
  MailRoute.client_ip (mkRequest (Some "") (Some " 10.0.0.2 ") None) = "10.0.0.2".
Proof. reflexivity. Qed.

Example ip_loopback : MailRoute.client_ip (mkRequest None None None) = "127.0.0.1".
Proof. reflexivity. Qed.

(** ** The key of the limiter *)

(** The key read off the headers, without the helper of the route. *)
Lemma client_ip_from_headers request :
  MailRoute.client_ip request
  = match x_forwarded_for request with
    | Some header =>
        if header =? "" then
          match x_real_ip request with Some real => Js.trim real | None => "127.0.0.1" end
        else Js.trim (fst (Js.split "," header))
    | None =>
        match x_real_ip request with Some real => Js.trim real | None => "127.0.0.1" end
    end.
Proof.
  unfold MailRoute.client_ip, Js.truthy.
  destruct (x_forwarded_for request) as [header | ]; [ | reflexivity].
  destruct (header =? ""); reflexivity.
Qed.

Lemma trimStart_cut (s : string) :
  exists before, s = before ++ Js.trimStart s /\ all_white before.
Proof.
  induction s as [ | c s [before [Hs Hw]]].
  - exists "". split; [reflexivity | constructor].
  - cbn [Js.trimStart]. destruct (Js.isWhiteSpace c) eqn:Hc.
    + exists (String c before). split.
      * cbn. now rewrite <- Hs.
      * constructor; assumption.
    + exists "". split; [reflexivity | constructor].
Qed.

Lemma trimStart_head (s : string) :
  Js.trimStart s = ""
  \/ exists c rest, Js.trimStart s = String c rest /\ Js.isWhiteSpace c = false.
Proof.
  induction s as [ | c s IH]; [left; reflexivity | ].
  cbn [Js.trimStart]. destruct (Js.isWhiteSpace c) eqn:Hc; [exact IH | ].
  right. exists c, s. split; [reflexivity | exact Hc].
Qed.

Lemma trimEnd_cut (s : string) :
  exists after,
    s = Js.trimEnd s ++ after /\ all_white after
    /\ (Js.trimEnd s = ""
        \/ exists front c, Js.trimEnd s = front ++ String c "" /\ Js.isWhiteSpace c = false).
Proof.
  induction s as [ | c s [after [Hs [Hw Hlast]]]].
  - exists "". split; [reflexivity | split; [constructor | left; reflexivity]].
  - cbn [Js.trimEnd].
    destruct (Js.isWhiteSpace c) eqn:Hc; cbn [andb].
    + destruct (Js.trimEnd s =? "") eqn:He.
      * apply String.eqb_eq in He. rewrite He in Hs. cbn in Hs.
        exists (String c after). split; [cbn; now rewrite <- Hs | ].
        split; [constructor; assumption | left; reflexivity].
      * exists after. split; [cbn; now rewrite <- Hs | ].
        split; [exact Hw | right].
        destruct Hlast as [Hnil | [front [d [Hf Hd]]]].
        -- rewrite Hnil in He. discriminate He.
        -- exists (String c front), d. split; [cbn; now rewrite <- Hf | exact Hd].
    + exists after. split; [cbn; now rewrite <- Hs | ].
      split; [exact Hw | right].
      destruct Hlast as [Hnil | [front [d [Hf Hd]]]].
      * exists "", c. rewrite Hnil. split; [reflexivity | exact Hc].
      * exists (String c front), d. split; [cbn; now rewrite <- Hf | exact Hd].
Qed.

Lemma trimEnd_head (c : ascii) (s : string) :
  Js.isWhiteSpace c = false -> Js.trimEnd (String c s) = String c (Js.trimEnd s).
Proof. intro Hc. cbn [Js.trimEnd]. rewrite Hc. reflexivity. Qed.

(** [trim] cuts white space, and only white space, off both ends. *)
Lemma trim_spec (s : string) : trimmed_from s (Js.trim s).
Proof.
  unfold trimmed_from, Js.trim.
  destruct (trimStart_cut s) as [before [Hs Hb]].
  destruct (trimEnd_cut (Js.trimStart s)) as [after [Ht [Ha Hlast]]].
  split.
  - exists before, after. split; [ | split; assumption].
    rewrite <- Ht. exact Hs.
  - destruct Hlast as [Hnil | Hlast]; [left; exact Hnil | right].
    split; [ | exact Hlast].
    destruct (trimStart_head s) as [Hnil | [c [rest [Hc Hw]]]].
    + rewrite Hnil in Hlast. destruct Hlast as [[ | ? ?] [d [Hf _]]]; discriminate Hf.
    + rewrite Hc, (trimEnd_head c rest Hw). exists c, (Js.trimEnd rest).
      split; [reflexivity | exact Hw].
Qed.

(** Element [0] of [header.split(",")] is the text before the first comma. *)
Lemma split_first_entry (header : string) :
  first_entry header (fst (Js.split "," header)).
Proof.
  unfold first_entry. induction header as [ | c header [Hcut Hfree]].
  - split; [left; reflexivity | constructor].
  - cbn [Js.split]. destruct (Js.split "," header) as [first rest] eqn:Hsplit.
    cbn [fst] in Hcut, Hfree.
    destruct (Ascii.eqb c ",") eqn:Hc; cbn [fst].
    + apply Ascii.eqb_eq in Hc. subst c.
      split; [right; exists header; reflexivity | constructor].
    + apply Ascii.eqb_neq in Hc. split.
      * destruct Hcut as [Hall | [tail Htail]].
        -- left. now rewrite Hall.
        -- right. exists tail. cbn. now rewrite <- Htail.
      * constructor; assumption.
Qed.

(** The key the route computes is the caller's IP of the specification. *)
Lemma client_ip_spec request : caller_ip request (MailRoute.client_ip request).
Proof.
  unfold caller_ip, MailRoute.client_ip, Js.truthy.
  destruct (x_forwarded_for request) as [[ | c header] | ].
  - cbn. destruct (x_real_ip request); [apply trim_spec | reflexivity].
  - cbn [String.eqb]. exists (fst (Js.split "," (String c header))).
    split; [apply split_first_entry | apply trim_spec].
  - destruct (x_real_ip request); [apply trim_spec | reflexivity].
Qed.

(** What the mail route does with a request without an email: the limiter
    is asked first, and only if it allows the request is the body looked at. *)
Lemma mail_missing_email request w :
  lacks_email request ->
  let ip := MailRoute.client_ip request in
  (exists response,
     fst (MailRoute.POST request w) = Return response
     /\ status response
        = match limiter_answer w (count_events is_limit w) MailRoute.ratelimit ip with
          | Return r => if success r then 400 else 429
          | Throw _ => 500
          end)
  /\ events (snd (MailRoute.POST request w))
     = (events w ++ [Limit MailRoute.ratelimit ip])%list
  /\ database (snd (MailRoute.POST request w)) = database w.
Proof.
  intros [o [Hb He]] ip. run. rewrite Hb. step.
  destruct (limiter_answer w _ _ _) as [r | e] eqn:Hl; step.
  - destruct (success r); step.
    + rewrite He. step. repeat split. eexists; split; reflexivity.
    + repeat split. eexists; split; reflexivity.
  - repeat split. eexists; split; reflexivity.
Qed.

(** C2, as stated, at the empty JSON object and a limiter that refuses: the
    mail route answers 429, not 400, and it has called the limiter. *)
Lemma missing_email_mail_rate_limited :
  lacks_email (json_request [])
  /\ fst (MailRoute.POST (json_request []) limited_world)
     = Return (NextResponse_json [("error", JStr "Too many requests!")] 429)
  /\ events (snd (MailRoute.POST (json_request []) limited_world))
     = [Limit MailRoute.ratelimit "127.0.0.1"]
  /\ ~ (answers_without_calls NotionRoute.POST 400 (json_request []) limited_world
        /\ answers_without_calls MailRoute.POST 400 (json_request []) limited_world).
Proof.
  split; [exists []; split; reflexivity | ].
  split; [reflexivity | split; [reflexivity | ]].
  intros [_ [[response [Hr Hs]] _]].
  vm_compute in Hr. injection Hr as <-. discriminate Hs.
Qed.

(** Even when the limiter allows the request, the call has been made. *)
Example missing_email_mail_allowed :
  option_map status (match fst (MailRoute.POST (json_request []) quiet_world) with
                     | Return r => Some r | Throw _ => None end) = Some 400
  /\ events (snd (MailRoute.POST (json_request []) quiet_world))
     = [Limit MailRoute.ratelimit "127.0.0.1"].
Proof. split; reflexivity. Qed.

(** C2, amended: for a request whose body is a JSON object without an email
    field, POST /api/notion answers 400 and calls no collaborator;
    POST /api/mail calls the limiter once and nothing else: no mail is sent
    and the store is untouched. The limiter is the one of
    [slidingWindow(2, "1 m")] and its key is read off the headers: the first
    entry of a non-empty x-forwarded-for, trimmed, else x-real-ip, trimmed,
    else 127.0.0.1. The mail route answers 400 when the limiter allows the
    request, 429 when it refuses, 500 when the limiter throws. *)
Theorem missing_email_rejected request w :
  lacks_email request ->
  let real_ip := match x_real_ip request with
                 | Some real => Js.trim real
                 | None => "127.0.0.1"
                 end in
  let key := match x_forwarded_for request with
             | Some header =>
                 if header =? "" then real_ip else Js.trim (fst (Js.split "," header))
             | None => real_ip
             end in
  let policy := slidingWindow 2 (mkDuration 1 Minutes) in
  answers_without_calls NotionRoute.POST 400 request w
  /\ (exists response,
        fst (MailRoute.POST request w) = Return response
        /\ status response
           = match limiter_answer w (count_events is_limit w) policy key with
             | Return r => if success r then 400 else 429
             | Throw _ => 500
             end)
  /\ events (snd (MailRoute.POST request w)) = (events w ++ [Limit policy key])%list
  /\ database (snd (MailRoute.POST request w)) = database w
  /\ caller_ip request key.
Proof.
  intros H real_ip key policy.
  assert (Hkey : key = MailRoute.client_ip request)
    by (symmetry; apply client_ip_from_headers).
  rewrite Hkey. change policy with MailRoute.ratelimit.
  split; [apply notion_missing_email; exact H | ].
  destruct (mail_missing_email request w H) as [Hr [He Hd]].
  split; [exact Hr | split; [exact He | split; [exact Hd | apply client_ip_spec]]].
Qed.

Lemma missing_email_rejected_witness :
  lacks_email (mkRequest (Some " 203.0.113.7 , 10.0.0.1") (Some "10.0.0.2")
                         (Some (Object [("firstname", "Ada")])))
  /\ answers_without_calls NotionRoute.POST 400
       (mkRequest (Some " 203.0.113.7 , 10.0.0.1") (Some "10.0.0.2")
                  (Some (Object [("firstname", "Ada")]))) quiet_world
  /\ (exists response,
        fst (MailRoute.POST (mkRequest (Some " 203.0.113.7 , 10.0.0.1") (Some "10.0.0.2")
                                       (Some (Object [("firstname", "Ada")]))) quiet_world)
        = Return response
        /\ status response = 400)
  /\ events (snd (MailRoute.POST (mkRequest (Some " 203.0.113.7 , 10.0.0.1") (Some "10.0.0.2")
                                            (Some (Object [("firstname", "Ada")]))) quiet_world))
     = [Limit (slidingWindow 2 (mkDuration 1 Minutes)) "203.0.113.7"]
  /\ database (snd (MailRoute.POST (mkRequest (Some " 203.0.113.7 , 10.0.0.1") (Some "10.0.0.2")
                                              (Some (Object [("firstname", "Ada")]))) quiet_world))
     = []
  /\ caller_ip (mkRequest (Some " 203.0.113.7 , 10.0.0.1") (Some "10.0.0.2")
                          (Some (Object [("firstname", "Ada")]))) "203.0.113.7".
Proof.
  assert (H : lacks_email (mkRequest (Some " 203.0.113.7 , 10.0.0.1") (Some "10.0.0.2")
                                     (Some (Object [("firstname", "Ada")])))).
  { exists [("firstname", "Ada")]. split; reflexivity. }
  split; [exact H | ].
  exact (missing_email_rejected
           (mkRequest (Some " 203.0.113.7 , 10.0.0.1") (Some "10.0.0.2")
                      (Some (Object [("firstname", "Ada")]))) quiet_world H).
Defined.

(** A JSON [null] body has no fields at all, and reading
    [email] off it throws. Both routes answer 500 (the mail route after its
    limiter call, when the limiter allows the request). *)
Lemma null_body_answers request w :
  body request = Some Null ->
  answers_without_calls NotionRoute.POST 500 request w
  /\ (exists response,
        fst (MailRoute.POST request w) = Return response
        /\ status response
           = match limiter_answer w (count_events is_limit w) MailRoute.ratelimit
                     (MailRoute.client_ip request) with
             | Return r => if success r then 500 else 429
             | Throw _ => 500
             end)
  /\ events (snd (MailRoute.POST request w))
     = (events w ++ [Limit MailRoute.ratelimit (MailRoute.client_ip request)])%list.
Proof.
  intro Hb. split; [ | split].
  - unfold answers_without_calls. run. rewrite Hb. step.
    destruct (isDev w); step; repeat split; eexists; split; reflexivity.
  - run. rewrite Hb. step.
    destruct (limiter_answer w _ _ _) as [r | e]; step;
      [destruct (success r); step | ]; eexists; split; reflexivity.
  - run. rewrite Hb. step.
    destruct (limiter_answer w _ _ _) as [r | e]; step;
      [destruct (success r); step | ]; reflexivity.
Qed.

(** C6: the first call the mail route makes is [limit] on the limiter built
    with [slidingWindow(2, "1 m")], two requests per 60000 ms, and that is
    its only call of the limiter. The key of the call is read off the
    headers: the first entry of a non-empty x-forwarded-for header, trimmed;
    else the x-real-ip header, trimmed; else 127.0.0.1. When the limiter
    refuses, the answer is 429 and no other call follows: no mail is sent. *)
Theorem mail_rate_limit_first request w :
  let w' := snd (MailRoute.POST request w) in
  let real_ip := match x_real_ip request with
                 | Some real => Js.trim real
                 | None => "127.0.0.1"
                 end in
  let key := match x_forwarded_for request with
             | Some header =>
                 if header =? "" then real_ip else Js.trim (fst (Js.split "," header))
             | None => real_ip
             end in
  let policy := slidingWindow 2 (mkDuration 1 Minutes) in
  (exists rest,
     events w' = (events w ++ Limit policy key :: rest)%list
     /\ filter is_limit rest = [])
  /\ caller_ip request key
  /\ MailRoute.ratelimit = policy
  /\ tokens MailRoute.ratelimit = 2
  /\ milliseconds (window MailRoute.ratelimit) = 60000%Z
  /\ (if denies w policy key then
        fst (MailRoute.POST request w)
        = Return (NextResponse_json [("error", JStr "Too many requests!")] 429)
        /\ events w' = (events w ++ [Limit policy key])%list
        /\ filter is_send (events w') = filter is_send (events w)
      else True).
Proof.
  intros w' real_ip key policy.
  assert (Hkey : key = MailRoute.client_ip request)
    by (symmetry; apply client_ip_from_headers).
  rewrite Hkey. clear Hkey key real_ip. change policy with MailRoute.ratelimit. clear policy.
  split; [ | split; [apply client_ip_spec | ]].
  - subst w'. run. step.
    destruct (limiter_answer w _ _ _) as [r | e] eqn:Hl; step.
    + destruct (success r); step; [ | exists []; split; reflexivity].
      destruct (body request) as [[ | o] | ]; step;
        try (exists []; split; reflexivity).
      destruct (Js.truthy (prop "email" o)); step;
        try (exists []; split; reflexivity).
      destruct (resend_answer w _ _) as [[dat [[msg nm] | ]] | err]; step;
        try destruct dat; step;
        (eexists; split; [rewrite <- app_assoc; reflexivity | reflexivity]).
    + exists []; split; reflexivity.
  - split; [reflexivity | split; [reflexivity | split; [reflexivity | ]]].
    subst w'. unfold denies. run. step.
    destruct (limiter_answer w _ _ _) as [r | e] eqn:Hl; step; [ | exact I].
    destruct (success r); step; [exact I | ].
    repeat split. rewrite filter_app, app_nil_r. reflexivity.
Qed.

(** The keys of three requests, and what each is trimmed from. *)
Example keys_from_headers :
  caller_ip (mkRequest (Some " 203.0.113.7 , 10.0.0.1") (Some "10.0.0.2") None) "203.0.113.7"
  /\ caller_ip (mkRequest (Some "") (Some " 10.0.0.2 ") None) "10.0.0.2"
  /\ caller_ip (mkRequest None None None) "127.0.0.1"
  /\ events (snd (MailRoute.POST (mkRequest (Some " 203.0.113.7 , 10.0.0.1") (Some "10.0.0.2")
                                            (Some (Object [("email", "a@b.com")])))
                                 limited_world))
     = [Limit (slidingWindow 2 (mkDuration 1 Minutes)) "203.0.113.7"].
Proof.
  split; [apply (client_ip_spec (mkRequest (Some " 203.0.113.7 , 10.0.0.1") (Some "10.0.0.2") None)) | ].
  split; [apply (client_ip_spec (mkRequest (Some "") (Some " 10.0.0.2 ") None)) | ].
  split; reflexivity.
Qed.

Example mail_denied :
  denies limited_world MailRoute.ratelimit "127.0.0.1" = true
  /\ fst (MailRoute.POST (json_request [("email", "a@b.com")]) limited_world)
     = Return (NextResponse_json [("error", JStr "Too many requests!")] 429)
  /\ events (snd (MailRoute.POST (json_request [("email", "a@b.com")]) limited_world))
     = [Limit MailRoute.ratelimit "127.0.0.1"].
Proof. repeat split. Qed.

Example mail_sent :
  events (snd (MailRoute.POST (json_request [("email", "a@b.com"); ("name", "Ada")]) quiet_world))
  = [Limit MailRoute.ratelimit "127.0.0.1";
     Send (mkMail "hello@example.com" ["a@b.com"]
                  "Welcome to Next.js + Notion CMS Waitlist" (Some "Ada"))].
Proof. reflexivity. Qed.

(** Three requests in a row from one address: the third is refused and
    sends nothing. *)
Example third_request_limited :
  let request := json_request [("email", "a@b.com")] in
  let w1 := snd (MailRoute.POST request burst_world) in
  let w2 := snd (MailRoute.POST request w1) in
  map (fun w => option_map status (match fst (MailRoute.POST request w) with
                                   | Return r => Some r | Throw _ => None end))
      [burst_world; w1; w2]
  = [Some 200; Some 200; Some 429]
  /\ List.length (filter is_send (events (snd (MailRoute.POST request w2)))) = 2.
Proof. split; reflexivity. Qed.

(** * Regular expressions: [test] decides the language *)

Module RegexFacts.
Import Regex.

Lemma append_eq_nil (u v : string) : u ++ v = "" -> u = "" /\ v = "".
Proof. destruct u; simpl; [intros ->; split; reflexivity | discriminate]. Qed.

Lemma nullable_matches (r : regex) : nullable r = true -> matches r "".
Proof.
  induction r as [ | | set | r1 IH1 r2 IH2 | r1 IH1 r2 IH2 | r1 IH1]; simpl; intro H.
  - discriminate H.
  - constructor.
  - discriminate H.
  - apply andb_true_iff in H as [H1 H2].
    change "" with ("" ++ ""). constructor; [apply IH1 | apply IH2]; assumption.
  - apply orb_true_iff in H as [H | H]; [apply m_alt_l, IH1 | apply m_alt_r, IH2]; exact H.
  - constructor.
Qed.

Lemma matches_nullable (r : regex) (u : string) : matches r u -> u = "" -> nullable r = true.
Proof.
  induction 1 as [ | set c Hc | r1 r2 u v _ IH1 _ IH2 | r1 r2 u _ IH | r1 r2 u _ IH
                 | r | r u v _ _ _ _]; intro Hu; simpl.
  - reflexivity.
  - discriminate Hu.
  - apply append_eq_nil in Hu as [-> ->]. rewrite IH1, IH2; reflexivity.
  - rewrite IH; [reflexivity | exact Hu].
  - rewrite IH; [apply orb_true_r | exact Hu].
  - reflexivity.
  - reflexivity.
Qed.

Lemma cat_matches (r1 r2 : regex) (x : string) :
  matches (Cat r1 r2) x <-> exists u v, x = u ++ v /\ matches r1 u /\ matches r2 v.
Proof.
  split.
  - intro H. inversion H; subst. eauto.
  - intros [u [v [-> [Hu Hv]]]]. constructor; assumption.
Qed.

(** A match of [Star r] that starts with [c] starts with a match of [r]
    that starts with [c]. *)
Lemma star_head (r : regex) (x : string) :
  matches (Star r) x ->
  forall c w, x = String c w ->
    exists u v, w = u ++ v /\ matches r (String c u) /\ matches (Star r) v.
Proof.
  intro H. remember (Star r) as sr eqn:Hsr.
  induction H as [ | | | | | r' | r' u v Hu _ Hv IHv]; try discriminate Hsr.
  - intros c w Hx. discriminate Hx.
  - injection Hsr as ->. intros c w Hx.
    destruct u as [ | a u].
    + simpl in Hx. apply (IHv eq_refl c w Hx).
    + simpl in Hx. injection Hx as -> <-. exists u, v. repeat split; assumption.
Qed.

Lemma deriv_matches (r : regex) :
  forall c w, matches (deriv c r) w <-> matches r (String c w).
Proof.
  induction r as [ | | set | r1 IH1 r2 IH2 | r1 IH1 r2 IH2 | r1 IH1]; intros c w; simpl.
  - split; intro H; inversion H.
  - split; intro H; inversion H.
  - destruct (set c) eqn:Hset; split; intro H.
    + inversion H; subst. constructor. exact Hset.
    + inversion H; subst. constructor.
    + inversion H.
    + inversion H; subst. congruence.
  - assert (Hcat : matches (Cat (deriv c r1) r2) w ->
                   matches (Cat r1 r2) (String c w)).
    { intro H. apply cat_matches in H as [u [v [-> [Hu Hv]]]].
      change (String c (u ++ v)) with (String c u ++ v).
      constructor; [apply IH1; exact Hu | exact Hv]. }
    assert (Hinv : matches (Cat r1 r2) (String c w) ->
                   matches (Cat (deriv c r1) r2) w
                   \/ (nullable r1 = true /\ matches (deriv c r2) w)).
    { intro H. apply cat_matches in H as [u [v [Heq [Hu Hv]]]].
      destruct u as [ | a u]; simpl in Heq.
      - right. split; [eapply matches_nullable; [exact Hu | reflexivity] | ].
        apply IH2. rewrite Heq. exact Hv.
      - injection Heq as <- ->. left. constructor; [apply IH1; exact Hu | exact Hv]. }
    destruct (nullable r1) eqn:Hn; split; intro H.
    + inversion H; subst.
      * apply Hcat. assumption.
      * change (String c w) with ("" ++ String c w).
        constructor; [apply nullable_matches; exact Hn | apply IH2; assumption].
    + destruct (Hinv H) as [H' | [_ H']]; [apply m_alt_l | apply m_alt_r]; exact H'.
    + apply Hcat. exact H.
    + destruct (Hinv H) as [H' | [Hn' _]]; [exact H' | discriminate Hn'].
  - split; intro H; inversion H; subst.
    + apply m_alt_l, IH1. assumption.
    + apply m_alt_r, IH2. assumption.
    + apply m_alt_l, IH1. assumption.
    + apply m_alt_r, IH2. assumption.
  - split; intro H.
    + apply cat_matches in H as [u [v [-> [Hu Hv]]]].
      change (String c (u ++ v)) with (String c u ++ v).
      constructor; [apply IH1; exact Hu | exact Hv].
    + destruct (star_head r1 _ H c w eq_refl) as [u [v [-> [Hu Hv]]]].
      constructor; [apply IH1; exact Hu | exact Hv].
Qed.

(** [test] answers [true] exactly on the language of the pattern. *)
Theorem test_matches (input : string) :
  forall r, test r input = true <-> matches r input.
Proof.
  induction input as [ | c rest IH]; intro r; simpl.
  - split; [apply nullable_matches | intro H; eapply matches_nullable; [exact H | reflexivity]].
  - rewrite IH. apply deriv_matches.
Qed.

Lemma star_chars (set : ascii -> bool) (u : string) :
  matches (Star (Chars set)) u <-> Forall (fun c => set c = true) (list_ascii_of_string u).
Proof.
  split.
  - intro H. remember (Star (Chars set)) as sr eqn:Hsr.
    induction H as [ | | | | | r' | r' u v Hu _ Hv IHv]; try discriminate Hsr.
    + constructor.
    + injection Hsr as ->. inversion Hu; subst. simpl. constructor; [assumption | ].
      apply IHv. reflexivity.
  - induction u as [ | c u IH]; simpl; intro H.
    + constructor.
    + inversion H; subst. change (String c u) with (String c "" ++ u).
      constructor; [constructor; assumption | apply IH; assumption].
Qed.

Lemma plus_chars (set : ascii -> bool) (u : string) :
  matches (Plus (Chars set)) u <-> word set u.
Proof.
  unfold Plus, word. split.
  - intro H. apply cat_matches in H as [a [v [-> [Ha Hv]]]].
    inversion Ha; subst. simpl. split; [discriminate | ].
    constructor; [assumption | apply star_chars; exact Hv].
  - intros [Hne H]. destruct u as [ | c u]; [contradiction | ].
    simpl in H. inversion H; subst. change (String c u) with (String c "" ++ u).
    constructor; [constructor; assumption | apply star_chars; assumption].
Qed.

Lemma char_matches (c : ascii) (u : string) : matches (Char c) u <-> u = String c "".
Proof.
  unfold Char. split.
  - intro H. inversion H; subst. apply Ascii.eqb_eq in H1. now subst.
  - intros ->. constructor. apply Ascii.eqb_refl.
Qed.

End RegexFacts.

(** The pattern of the form accepts exactly the texts local@domain.tld
    whose three parts are non-empty and free of white space and @. *)
Theorem isValidEmail_shape (email : string) :
  Form.isValidEmail email = true <->
  exists local domain tld,
    email = local ++ "@" ++ domain ++ "." ++ tld
    /\ Regex.word Form.not_space_or_at local
    /\ Regex.word Form.not_space_or_at domain
    /\ Regex.word Form.not_space_or_at tld.
Proof.
  unfold Form.isValidEmail, Form.emailRegex. rewrite RegexFacts.test_matches.
  rewrite RegexFacts.cat_matches. split.
  - intros [l [x1 [-> [Hl H1]]]].
    apply RegexFacts.cat_matches in H1 as [at_ [x2 [-> [Hat H2]]]].
    apply RegexFacts.cat_matches in H2 as [d [x3 [-> [Hd H3]]]].
    apply RegexFacts.cat_matches in H3 as [dot [t [-> [Hdot Ht]]]].
    apply RegexFacts.char_matches in Hat as ->. apply RegexFacts.char_matches in Hdot as ->.
    exists l, d, t.
    split; [reflexivity | split; [ | split]]; apply RegexFacts.plus_chars; assumption.
  - intros [l [d [t [-> [Hl [Hd Ht]]]]]].
    exists l, ("@" ++ d ++ "." ++ t). split; [reflexivity | ].
    split; [apply RegexFacts.plus_chars; exact Hl | ].
    apply RegexFacts.cat_matches. exists "@", (d ++ "." ++ t). split; [reflexivity | ].
    split; [apply RegexFacts.char_matches; reflexivity | ].
    apply RegexFacts.cat_matches. exists d, ("." ++ t). split; [reflexivity | ].
    split; [apply RegexFacts.plus_chars; exact Hd | ].
    apply RegexFacts.cat_matches. exists ".", t. split; [reflexivity | ].
    split; [apply RegexFacts.char_matches; reflexivity | apply RegexFacts.plus_chars; exact Ht].
Qed.

(** * The form *)

Lemma issued_app (b b' : Form.Browser) (l : list Form.UiEffect) :
  Form.effects b' = (Form.effects b ++ l)%list -> issued b b' = l.
Proof.
  intro H. unfold issued. rewrite H.
  rewrite skipn_app, skipn_all, Nat.sub_diag. reflexivity.
Qed.

Ltac run_form :=
  unfold Form.handleSubmit, try_catch_finally, try_catch, bind, ret, throw, gets, modify,
    Form.fetch, Form.response_json, Form.member, destructure,
    Form.logger.debug, Form.logger.warn, Form.logger.info, Form.logger.error, Form.logger.log,
    Form.setStep, Form.setLoading, Form.setSuccess, Form.setShareLink, Form.setFormData,
    Form.toast_error, Form.toast_success.

(** The empty text does not match the pattern, so the first test of
    [!formData.email || !isValidEmail(formData.email)] adds nothing. *)
Lemma invalid_or_empty (email : string) :
  (email =? "") || negb (Form.isValidEmail email) = negb (Form.isValidEmail email).
Proof.
  destruct (String.eqb_spec email "") as [-> | _]; reflexivity.
Qed.

Example foo_invalid : Form.isValidEmail "foo" = false.
Proof. reflexivity. Qed.

Example a_b_com_valid : Form.isValidEmail "a@b.com" = true.
Proof. reflexivity. Qed.

Example space_invalid : Form.isValidEmail "a b@c.de" = false.
Proof. reflexivity. Qed.

(** C7: at step 1 a submission never reaches the network. An email that
    passes the pattern moves the form to step 2 and changes nothing else:
    the form data, the loading and success flags and the share link stay as
    they were, and nothing is shown. An email that fails the pattern leaves
    the form at step 1, with the state as it was, and shows an error
    toast. *)
Theorem step1_submit (b : Form.Browser) :
  Form.step (Form.state b) = 1 ->
  let b' := snd (Form.handleSubmit b) in
  fst (Form.handleSubmit b) = Return tt
  /\ filter Form.is_fetch (issued b b') = []
  /\ Form.formData (Form.state b') = Form.formData (Form.state b)
  /\ Form.loading (Form.state b') = Form.loading (Form.state b)
  /\ Form.success (Form.state b') = Form.success (Form.state b)
  /\ Form.shareLink (Form.state b') = Form.shareLink (Form.state b)
  /\ if Form.isValidEmail (Form.email (Form.formData (Form.state b))) then
       Form.step (Form.state b') = 2
       /\ Form.state b' = Form.with_step 2 (Form.state b)
       /\ issued b b' = []
     else
       Form.step (Form.state b') = 1
       /\ Form.state b' = Form.state b
       /\ issued b b' = [Form.ToastError (JStr "Please enter a valid email address")].
Proof.
  intros Hstep b'. subst b'. run_form. cbn -[Form.isValidEmail String.eqb].
  rewrite Hstep. cbn -[Form.isValidEmail String.eqb]. rewrite invalid_or_empty.
  destruct (Form.isValidEmail _); cbn.
  - rewrite (issued_app b _ []) by (cbn; now rewrite app_nil_r).
    repeat split.
  - rewrite (issued_app b _ [Form.ToastError (JStr "Please enter a valid email address")])
      by reflexivity.
    repeat split; exact Hstep.
Qed.

Lemma step1_submit_witness :
  fst (Form.handleSubmit (page_with (at_step 1 "a@b.com") (answering None None))) = Return tt
  /\ Form.step (Form.state (snd (Form.handleSubmit
                                   (page_with (at_step 1 "a@b.com") (answering None None)))))
     = 2
  /\ Form.formData (Form.state (snd (Form.handleSubmit
                                       (page_with (at_step 1 "a@b.com") (answering None None)))))
     = Form.formData (at_step 1 "a@b.com")
  /\ issued (page_with (at_step 1 "a@b.com") (answering None None))
            (snd (Form.handleSubmit (page_with (at_step 1 "a@b.com") (answering None None))))
     = [].
Proof.
  pose proof (step1_submit (page_with (at_step 1 "a@b.com") (answering None None)) eq_refl) as H.
  cbv zeta in H. destruct H as [Hr [_ [Hd [_ [_ [_ H]]]]]].
  change (Form.isValidEmail
            (Form.email (Form.formData
               (Form.state (page_with (at_step 1 "a@b.com") (answering None None))))))
    with true in H.
  cbv iota in H. destruct H as [Hs [_ Hi]].
  split; [exact Hr | split; [exact Hs | split; [exact Hd | exact Hi]]].
Defined.

(** The same at an email that fails the pattern: the form stays at step 1. *)
Example step1_invalid :
  Form.state (snd (Form.handleSubmit (page_with (at_step 1 "foo") (answering None None))))
  = at_step 1 "foo"
  /\ Form.step (Form.state (snd (Form.handleSubmit
                                   (page_with (at_step 1 "foo") (answering None None)))))
     = 1
  /\ issued (page_with (at_step 1 "foo") (answering None None))
            (snd (Form.handleSubmit (page_with (at_step 1 "foo") (answering None None))))
     = [Form.ToastError (JStr "Please enter a valid email address")].
Proof. repeat split. Qed.

Example step1_valid :
  Form.state (snd (Form.handleSubmit (page_with (at_step 1 "a@b.com") (answering None None))))
  = at_step 2 "a@b.com"
  /\ Form.effects (snd (Form.handleSubmit (page_with (at_step 1 "a@b.com") (answering None None))))
     = [].
Proof. split; reflexivity. Qed.

Ltac form_step := cbn -[Form.isValidEmail String.eqb Nat.eqb Form.ok Form.payload_of].

(** Computes [issued b b'] once the effects of [b'] are those of [b]
    followed by explicit ones. *)
Ltac issued_now :=
  unfold issued; form_step; rewrite <- ?app_assoc;
  rewrite ?skipn_app, ?skipn_all, ?Nat.sub_diag; form_step.

(** C8: at step 2, when the mail call fails (the network fails or the
    status is not 2xx), the only request issued is the one to /api/mail;
    none goes to /api/notion. *)
Theorem mail_failure_blocks_enrollment (b : Form.Browser) :
  Form.step (Form.state b) <> 1 ->
  failed (mail_outcome b) = true ->
  let b' := snd (Form.handleSubmit b) in
  filter Form.is_fetch (issued b b') = [Form.Fetch "/api/mail" (payload b)]
  /\ forall p, ~ In (Form.Fetch "/api/notion" p) (issued b b').
Proof.
  intros Hstep Hmail b'. subst b'. apply Nat.eqb_neq in Hstep.
  unfold failed, mail_outcome, payload in Hmail. unfold payload.
  run_form. form_step. rewrite Hstep. form_step.
  destruct (Form.network b "/api/mail" _) as [m | ]; form_step.
  - apply negb_true_iff in Hmail. rewrite Hmail. form_step.
    issued_now. split; [reflexivity | ].
    intros p [H | [H | []]]; discriminate H.
  - issued_now. split; [reflexivity | ].
    intros p [H | [H | []]]; discriminate H.
Qed.

Lemma mail_failure_blocks_enrollment_witness :
  filter Form.is_fetch
    (issued (page_with (at_step 2 "a@b.com") (answering (Some (Form.mkHttp 500 None)) None))
       (snd (Form.handleSubmit
               (page_with (at_step 2 "a@b.com") (answering (Some (Form.mkHttp 500 None)) None)))))
  = [Form.Fetch "/api/mail" [("firstname", "a"); ("email", "a@b.com")]]
  /\ forall p,
      ~ In (Form.Fetch "/api/notion" p)
          (issued (page_with (at_step 2 "a@b.com") (answering (Some (Form.mkHttp 500 None)) None))
             (snd (Form.handleSubmit
                     (page_with (at_step 2 "a@b.com")
                        (answering (Some (Form.mkHttp 500 None)) None))))).
Proof.
  apply (mail_failure_blocks_enrollment
           (page_with (at_step 2 "a@b.com") (answering (Some (Form.mkHttp 500 None)) None))).
  - simpl. discriminate.
  - reflexivity.
Defined.

(** A mail call that is rejected by the network: one request, the generic
    message. *)
Example mail_network_failure :
  Form.effects (snd (Form.handleSubmit (page_with (at_step 2 "a@b.com") (answering None None))))
  = [Form.Fetch "/api/mail" [("firstname", "a"); ("email", "a@b.com")];
     Form.ToastError something_went_wrong].
Proof. reflexivity. Qed.

(** With error bodies as the routes send them, the form's message is the
    one of the three that the status selects. *)
Lemma failure_toast_as_claimed (mail notion : option Form.HttpResponse) :
  (forall n, notion = Some n -> Form.ok n = false -> routes_error_body n) ->
  (forall n, notion = Some n -> Form.ok n = true -> failed mail = false ->
             exists o, Form.body n = Some (Object o)) ->
  (failed mail = false ->
   match notion with
   | Some n => Form.ok n && match Form.body n with Some (Object _) => true | _ => false end
   | None => false
   end = false) ->
  failure_toast mail notion = claimed_toast mail notion.
Proof.
  intros Herr Hok Hfail. unfold failure_toast, claimed_toast.
  destruct mail as [m | ]; [ | reflexivity].
  destruct (Form.ok m) eqn:Hm; cbn [negb]; [ | reflexivity].
  destruct notion as [n | ]; [ | reflexivity].
  assert (Hf : failed (Some m) = false) by (cbn; now rewrite Hm).
  destruct (Form.ok n) eqn:Hn.
  - destruct (Hok n eq_refl Hn Hf) as [o Ho].
    specialize (Hfail Hf). rewrite Ho in Hfail. discriminate Hfail.
  - destruct (Herr n eq_refl Hn) as [o [Hb He]].
    unfold error_text. rewrite Hb.
    destruct (Nat.eqb_spec (Form.status n) 409) as [H409 | _]; [ | reflexivity].
    destruct (prop "error" o) as [v | ] eqn:Hv; [ | reflexivity].
    destruct (jtruthy (Some v)) eqn:Hj; [ | reflexivity].
    specialize (He H409 eq_refl). now injection He as ->.
Qed.

(** C9, as stated: a 409 whose body is not JSON is shown as "Unknown
    error", which is none of the three messages. *)
Lemma conflict_unknown_error :
  let b := page_with (at_step 2 "a@b.com")
             (answering (Some mail_sent_response) (Some (Form.mkHttp 409 None))) in
  succeeds b = false
  /\ filter Form.is_toast (issued b (snd (Form.handleSubmit b)))
     = [Form.ToastError (JStr "Unknown error")]
  /\ claimed_toast (mail_outcome b) (notion_outcome b) = already_enrolled
  /\ filter Form.is_toast (issued b (snd (Form.handleSubmit b)))
     <> [Form.ToastError (claimed_toast (mail_outcome b) (notion_outcome b))]
  /\ ~ In (JStr "Unknown error") [already_enrolled; too_many_attempts; something_went_wrong].
Proof.
  cbv zeta. split; [reflexivity | split; [reflexivity | split; [reflexivity | split]]].
  - intro H. vm_compute in H. discriminate H.
  - intros [H | [H | [H | []]]]; discriminate H.
Qed.

(** The text of a 409 is whatever the body carries. *)
Example conflict_other_text :
  let b := page_with (at_step 2 "a@b.com")
             (answering (Some mail_sent_response)
                (Some (Form.mkHttp 409 (Some (Object [("error", JStr "Nope")]))))) in
  filter Form.is_toast (issued b (snd (Form.handleSubmit b))) = [Form.ToastError (JStr "Nope")].
Proof. reflexivity. Qed.

(** What a failed step-2 submission leaves behind: one error message,
    [success] as it was, [loading] cleared. *)
Lemma failed_submission (b : Form.Browser) :
  Form.step (Form.state b) <> 1 ->
  succeeds b = false ->
  let b' := snd (Form.handleSubmit b) in
  filter Form.is_toast (issued b b')
  = [Form.ToastError (failure_toast (mail_outcome b) (notion_outcome b))]
  /\ Form.success (Form.state b') = Form.success (Form.state b)
  /\ Form.loading (Form.state b') = false.
Proof.
  intros Hstep Hfail b'. subst b'. apply Nat.eqb_neq in Hstep.
  unfold succeeds, failed, failure_toast, error_text, mail_outcome, notion_outcome, payload in *.
  run_form. form_step. rewrite Hstep. form_step.
  destruct (Form.network b "/api/mail" _) as [m | ]; form_step.
  - destruct (Form.ok m) eqn:Hm; form_step.
    + destruct (Form.network b "/api/notion" _) as [n | ]; form_step.
      * destruct (Form.ok n) eqn:Hn; form_step.
        -- destruct (Form.body n) as [[ | o] | ]; form_step; try discriminate Hfail;
             (split; [issued_now; reflexivity | split; reflexivity]).
        -- destruct (Form.body n) as [[ | o] | ]; form_step;
             try destruct (prop "error" o) as [[ | [ | ] | t] | ]; form_step;
             try destruct (t =? ""); form_step;
             destruct (Form.status n =? 409)%nat; form_step;
             try destruct (Form.status n =? 429)%nat; form_step;
             (split; [issued_now; reflexivity | split; reflexivity]).
      * split; [issued_now; reflexivity | split; reflexivity].
    + destruct (Form.status m =? 429)%nat; form_step;
        (split; [issued_now; reflexivity | split; reflexivity]).
  - split; [issued_now; reflexivity | split; reflexivity].
Qed.

Lemma failure_toast_served (b : Form.Browser) :
  succeeds b = false ->
  (forall n, notion_outcome b = Some n -> routes_error_body n) ->
  failure_toast (mail_outcome b) (notion_outcome b)
  = claimed_toast (mail_outcome b) (notion_outcome b).
Proof.
  intros Hfail Hbody. apply failure_toast_as_claimed.
  - intros n Hn _. apply Hbody. exact Hn.
  - intros n Hn _ _. destruct (Hbody n Hn) as [o [Ho _]]. exists o. exact Ho.
  - intro Hm. unfold succeeds in Hfail. rewrite Hm in Hfail. exact Hfail.
Qed.

(** C9, amended: a failed step-2 submission shows exactly one message, an
    error, and leaves [success] as it was and [loading] cleared. The message
    is [failure_toast]: "Too many attempts" for a 429 from the mail call or
    from the enrollment call, the text of the response for a 409 from
    enrollment ("You're already on the waitlist!" when the body has none,
    "Unknown error" when it is not JSON), "Something went wrong" otherwise,
    also when the body of a failed enrollment is [null]. With the bodies that
    the routes send this is the message the status alone selects. *)
Theorem failure_messages (b : Form.Browser) :
  Form.step (Form.state b) <> 1 ->
  succeeds b = false ->
  let b' := snd (Form.handleSubmit b) in
  filter Form.is_toast (issued b b')
  = [Form.ToastError (failure_toast (mail_outcome b) (notion_outcome b))]
  /\ Form.success (Form.state b') = Form.success (Form.state b)
  /\ Form.loading (Form.state b') = false
  /\ ((forall n, notion_outcome b = Some n -> routes_error_body n) ->
      failure_toast (mail_outcome b) (notion_outcome b)
      = claimed_toast (mail_outcome b) (notion_outcome b)).
Proof.
  intros Hstep Hfail b'. subst b'.
  destruct (failed_submission b Hstep Hfail) as [Htoast [Hsuccess Hloading]].
  split; [exact Htoast | split; [exact Hsuccess | split; [exact Hloading | ]]].
  apply failure_toast_served. exact Hfail.
Qed.

Lemma failure_messages_witness :
  let b := page_with (at_step 2 "a@b.com")
             (answering (Some mail_sent_response)
                (Some (Form.mkHttp 409 (Some (Object [("error", already_enrolled)]))))) in
  filter Form.is_toast (issued b (snd (Form.handleSubmit b)))
  = [Form.ToastError already_enrolled]
  /\ Form.success (Form.state (snd (Form.handleSubmit b))) = false
  /\ Form.loading (Form.state (snd (Form.handleSubmit b))) = false.
Proof.
  cbv zeta.
  assert (Hstep : Form.step (Form.state
            (page_with (at_step 2 "a@b.com")
               (answering (Some mail_sent_response)
                  (Some (Form.mkHttp 409 (Some (Object [("error", already_enrolled)])))))))
          <> 1) by (simpl; discriminate).
  destruct (failure_messages
              (page_with (at_step 2 "a@b.com")
                 (answering (Some mail_sent_response)
                    (Some (Form.mkHttp 409 (Some (Object [("error", already_enrolled)]))))))
              Hstep eq_refl) as [Ht [Hs [Hl _]]].
  split; [exact Ht | split; [exact Hs | exact Hl]].
Defined.

Example mail_429 :
  Form.effects (snd (Form.handleSubmit
                       (page_with (at_step 2 "a@b.com")
                          (answering (Some (Form.mkHttp 429 None)) None))))
  = [Form.Fetch "/api/mail" [("firstname", "a"); ("email", "a@b.com")];
     Form.ToastError too_many_attempts].
Proof. reflexivity. Qed.

Example notion_429 :
  filter Form.is_toast
    (Form.effects (snd (Form.handleSubmit
                          (page_with (at_step 2 "a@b.com")
                             (answering (Some mail_sent_response)
                                (Some (Form.mkHttp 429 (Some (Object [])))))))))
  = [Form.ToastError too_many_attempts].
Proof. reflexivity. Qed.

(** The whole scenario on the client side: the link is the origin,
    "/?ref=" and the code of the response. *)
Example share_link :
  let b := page_with (at_step 2 "a@b.com")
             (answering (Some mail_sent_response)
                (Some (Form.mkHttp 200 (Some (Object [("success", JBool true);
                                                      ("code", JStr "SSSSSSSS")]))))) in
  Form.state (snd (Form.handleSubmit b))
  = Form.mkState 2 (Form.mkFormData "" "") false true "https://waitlist.example/?ref=SSSSSSSS".
Proof. reflexivity. Qed.

(** * The form against the routes of the application *)

(** Every 409 of the enrollment route carries the conflict text. *)
Lemma notion_conflict_body request w response :
  fst (NotionRoute.POST request w) = Return response ->
  status response = 409 ->
  response_body response = [("error", already_enrolled)].
Proof.
  run.
  destruct (body request) as [[ | o] | ]; step; try (intros [= <-]; discriminate).
  destruct (Js.truthy (prop "email" o)) as [e | ]; step; try (intros [= <-]; discriminate).
  destruct (notion_fault w (count_events is_notion w)); step; try (intros [= <-]; discriminate).
  destruct (0 <? _)%nat; step; [intros [= <-] _; reflexivity | ].
  destruct (generateCode generateCode_default_length (rng w)) as [code g]. step.
  destruct (Js.truthy (prop "referredBy" o)) as [r | ]; step.
  - destruct (notion_fault w (S (count_events is_notion w))); step.
    + destruct (notion_fault w (S (S (count_events is_notion w)))); step;
        intros [= <-]; discriminate.
    + destruct (firstn 100 _) as [ | first rest]; step;
        (destruct (notion_fault w (S (S (count_events is_notion w)))); step;
         intros [= <-]; discriminate).
  - destruct (notion_fault w (S (count_events is_notion w))); step;
      intros [= <-]; discriminate.
Qed.

Lemma delivered_error_body (response : Response) :
  (status response = 409 -> response_body response = [("error", already_enrolled)]) ->
  routes_error_body (delivered response).
Proof.
  intro H. exists (response_body response). split; [reflexivity | ].
  intros H409 _. cbn in H409. rewrite (H H409). reflexivity.
Qed.

(** Served by the routes, a failed submission shows the one of the three
    messages that the status selects. *)
Theorem failure_messages_served (w : World) (forwarded real : option string)
        (b : Form.Browser) :
  Form.network b = served_by w forwarded real ->
  Form.step (Form.state b) <> 1 ->
  succeeds b = false ->
  filter Form.is_toast (issued b (snd (Form.handleSubmit b)))
  = [Form.ToastError (claimed_toast (mail_outcome b) (notion_outcome b))]
  /\ In (claimed_toast (mail_outcome b) (notion_outcome b))
        [already_enrolled; too_many_attempts; something_went_wrong].
Proof.
  intros Hnet Hstep Hfail.
  destruct (failed_submission b Hstep Hfail) as [Htoast _].
  split.
  - rewrite Htoast, (failure_toast_served b Hfail); [reflexivity | ].
    intros n Hn. unfold notion_outcome in Hn. rewrite Hnet in Hn.
    unfold served_by in Hn. cbn [String.eqb Ascii.eqb Bool.eqb] in Hn.
    match type of Hn with
    | context [NotionRoute.POST ?rq ?w1] =>
        destruct (fst (NotionRoute.POST rq w1)) as [r | e] eqn:Hr; [ | discriminate Hn];
        injection Hn as <-; apply delivered_error_body;
        apply (notion_conflict_body rq w1); exact Hr
    end.
  - unfold claimed_toast.
    destruct (mail_outcome b) as [m | ]; [ | cbn; tauto].
    destruct (Form.ok m); cbn [negb].
    + destruct (notion_outcome b) as [n | ]; [ | cbn; tauto].
      destruct (Form.status n =? 409)%nat; [cbn; tauto | ].
      destruct (Form.status n =? 429)%nat; cbn; tauto.
    + destruct (Form.status m =? 429)%nat; cbn; tauto.
Qed.

(** The scenario of the specification, end to end: "a@b.com" without a name
    is enrolled under the name "a", and the link is the origin, "/?ref=" and
    the code. *)
Example end_to_end_scenario :
  let b := page_with (at_step 2 "a@b.com") (served_by quiet_world None None) in
  Form.state (snd (Form.handleSubmit b))
  = Form.mkState 2 (Form.mkFormData "" "") false true "https://waitlist.example/?ref=SSSSSSSS"
  /\ filter Form.is_toast (Form.effects (snd (Form.handleSubmit b)))
     = [Form.ToastSuccess "You're on the waitlist!"]
  /\ database (snd (NotionRoute.POST (json_request (payload b))
                      (snd (MailRoute.POST (json_request (payload b)) quiet_world))))
     = [mkPage "page-0" (mkProperties "a" "a@b.com" "SSSSSSSS" [] [])].
Proof. cbv zeta. repeat split. Qed.

(** The same address a second time: the enrollment route answers 409 and
    the form shows the route's text. *)
Example end_to_end_duplicate :
  let b := page_with (at_step 2 "a@b.com") (served_by world_with_row None None) in
  filter Form.is_toast (Form.effects (snd (Form.handleSubmit b)))
  = [Form.ToastError already_enrolled]
  /\ Form.success (Form.state (snd (Form.handleSubmit b))) = false.
Proof. cbv zeta. split; reflexivity. Qed.

(** A limiter that refuses: the mail call answers 429, the form shows the
    rate-limit text and the enrollment route is never reached. *)
Example end_to_end_rate_limited :
  let b := page_with (at_step 2 "a@b.com") (served_by limited_world None None) in
  Form.effects (snd (Form.handleSubmit b))
  = [Form.Fetch "/api/mail" [("firstname", "a"); ("email", "a@b.com")];
     Form.ToastError too_many_attempts].
Proof. reflexivity. Qed.
